(** * Save-Syncer: a shallow embedding of [main.py] and its verification

    The development follows the layout of the script:
    - Python's string primitives used by the parser ([str.strip],
      [str.upper], [str.lower], [str.splitlines], [str.split(":", 1)]);
    - [parse_definition], with the dictionaries of the source as [gmap]s;
    - Python values and truthiness for the newest-side flags of [main];
    - an exception/state monad and the file-system interface through which
      [backup], [copy], [latest_mtime] and [perform] act;
    - an in-memory file system (a directory tree with its modification
      times, and the local time of the machine) implementing that
      interface, and a fault-injecting wrapper around it.

    Characters are the code points 0..127 of ASCII: on other code points
    Python consults the Unicode tables for case mapping, white space and
    line boundaries, which are outside this model (bytes above 127 are
    kept as they are, are not white space and have no case). *)

From stdpp Require Import base strings gmap list.
From Stdlib Require Import ZArith Ascii String Lia.

Open Scope string_scope.
Open Scope list_scope.
Open Scope Z_scope.
Open Scope nat_scope.

(** ** Python string primitives *)

Module PyStr.

Definition code (c : ascii) : nat := nat_of_ascii c.

(** [str.isspace] on one ASCII character: TAB, LF, VT, FF, CR, the four
    separators FS, GS, RS, US and the space. *)
Definition is_space (c : ascii) : bool :=
  let n := code c in
  ((9 <=? n) && (n <=? 13)) || ((28 <=? n) && (n <=? 32)).

(** The line boundaries of [str.splitlines] within ASCII:
    LF, VT, FF, CR, FS, GS, RS (US is white space but no boundary). *)
Definition is_linebreak (c : ascii) : bool :=
  let n := code c in
  ((10 <=? n) && (n <=? 13)) || ((28 <=? n) && (n <=? 30)).

Definition is_cr (c : ascii) : bool := code c =? 13.
Definition is_lf (c : ascii) : bool := code c =? 10.

Definition upper_char (c : ascii) : ascii :=
  let n := code c in
  if (97 <=? n) && (n <=? 122) then ascii_of_nat (n - 32) else c.

Definition lower_char (c : ascii) : ascii :=
  let n := code c in
  if (65 <=? n) && (n <=? 90) then ascii_of_nat (n + 32) else c.

Fixpoint upper (s : string) : string :=
  match s with
  | EmptyString => EmptyString
  | String c r => String (upper_char c) (upper r)
  end.

Fixpoint lower (s : string) : string :=
  match s with
  | EmptyString => EmptyString
  | String c r => String (lower_char c) (lower r)
  end.

Definition is_empty (s : string) : bool :=
  match s with EmptyString => true | String _ _ => false end.

Fixpoint lstrip (s : string) : string :=
  match s with
  | EmptyString => EmptyString
  | String c r => if is_space c then lstrip r else s
  end.

Fixpoint rstrip (s : string) : string :=
  match s with
  | EmptyString => EmptyString
  | String c r =>
      let r' := rstrip r in
      if is_space c && is_empty r' then EmptyString else String c r'
  end.

(** [s.strip()] *)
Definition strip (s : string) : string := rstrip (lstrip s).

(** [s.splitlines()]: [cur] is the line being read, [after_cr] tells that
    the previous character was a CR, so that CR LF counts as one
    boundary. A last line is produced only if it is not empty. *)
Fixpoint splitlines_go (s : string) (after_cr : bool) (cur : string)
  : list string :=
  match s with
  | EmptyString => if is_empty cur then [] else [cur]
  | String c r =>
      if after_cr && is_lf c then splitlines_go r false cur
      else if is_linebreak c then cur :: splitlines_go r (is_cr c) EmptyString
      else splitlines_go r false (cur +:+ String c EmptyString)
  end.

Definition splitlines (s : string) : list string :=
  splitlines_go s false EmptyString.

Definition is_colon (c : ascii) : bool := code c =? 58.

(** [":" in s] *)
Fixpoint has_colon (s : string) : bool :=
  match s with
  | EmptyString => false
  | String c r => is_colon c || has_colon r
  end.

(** [s.split(":", 1)] for a string that holds a colon: the text before
    the first colon and the text after it. Without a colon the whole
    string comes back with an empty second part (the source never splits
    such a line). *)
Fixpoint split_colon (s : string) : string * string :=
  match s with
  | EmptyString => (EmptyString, EmptyString)
  | String c r =>
      if is_colon c then (EmptyString, r)
      else let '(k, v) := split_colon r in (String c k, v)
  end.

(** [x in xs] for a small collection of strings *)
Definition mem (x : string) (xs : list string) : bool :=
  existsb (String.eqb x) xs.

End PyStr.

Import PyStr.

#[global] Arguments mem : simpl never.
#[global] Arguments strip : simpl never.
#[global] Arguments upper : simpl never.
#[global] Arguments lower : simpl never.
#[global] Arguments has_colon : simpl never.
#[global] Arguments split_colon : simpl never.

(** ** The definition parser *)

(** [sections, keys = {"WINDOWS", "LINUX"}, {"windows", "linux"}] *)
Definition sections : list string := ["WINDOWS"; "LINUX"].
Definition keys : list string := ["windows"; "linux"].

(** [DefinitionError], with the text the three [raise] statements format
    into their message (the file name is left out). *)
Inductive DefinitionError : Type :=
  | MalformedLine (line : string)
  | UnknownSubKey (key : string)
  | IncompleteSection (s : string).

(** [data: Dict[str, Dict[str, str]] = {s: {} for s in sections}] *)
Definition empty_data : gmap string (gmap string string) :=
  <["WINDOWS" := ∅]> (<["LINUX" := ∅]> ∅).

(** [data[s]]; every use in the source is on a section that is present *)
Definition section_of (data : gmap string (gmap string string)) (s : string)
  : gmap string string := default ∅ (data !! s).

(** The [for raw in ...] loop of [parse_definition]; [current] and [data]
    are its two variables. *)
Fixpoint scan (lines : list string) (current : option string)
    (data : gmap string (gmap string string))
  : DefinitionError + gmap string (gmap string string) :=
  match lines with
  | [] => inr data
  | raw :: rest =>
      let line := strip raw in
      if is_empty line then scan rest current data
      else
        let up := upper line in
        if mem up sections then scan rest (Some up) data
        else
          match current with
          | None => inl (MalformedLine line)
          | Some cur =>
              if negb (has_colon line) then inl (MalformedLine line)
              else
                let '(k, v) := split_colon line in
                let key := lower (strip k) in
                let val := strip v in
                if negb (mem key keys) then inl (UnknownSubKey key)
                else scan rest current
                       (<[cur := <[key := val]> (section_of data cur)]> data)
          end
  end.

(** [set(data[s]) != keys] *)
Definition incomplete (data : gmap string (gmap string string)) (s : string)
  : bool :=
  negb (bool_decide (dom (section_of data s) = list_to_set keys)).

(** The closing [for s in sections] loop. A Python set is iterated in an
    order the language leaves open; the order only decides which section
    the message names when both are incomplete. *)
Fixpoint check_sections (ss : list string)
    (data : gmap string (gmap string string))
  : DefinitionError + gmap string (gmap string string) :=
  match ss with
  | [] => inr data
  | s :: rest =>
      if incomplete data s then inl (IncompleteSection s)
      else check_sections rest data
  end.

(** [parse_definition], on the text that [f.read_text] returned *)
Definition parse_definition (text : string)
  : DefinitionError + gmap string (gmap string string) :=
  match scan (splitlines text) None empty_data with
  | inl e => inl e
  | inr data => check_sections sections data
  end.

(** *** The conditions of the specification, stated on the lines of a text *)

Section DefinitionText.

(** a non-empty line (after trimming) *)
Definition nonblank (raw : string) : Prop := strip raw ≠ EmptyString.

(** a section header: the trimmed, uppercased line is a section name *)
Definition header (raw : string) : Prop :=
  mem (upper (strip raw)) sections = true.

(** a non-empty line that is not a section header *)
Definition data_line (raw : string) : Prop := nonblank raw ∧ ¬ header raw.

(** the line holds a [:] separator *)
Definition separated (raw : string) : Prop := has_colon (strip raw) = true.

(** the key of a line: the text before the first colon, trimmed and
    compared case-insensitively *)
Definition key_of (raw : string) : string :=
  lower (strip (fst (split_colon (strip raw)))).

(** the value of a line: the text after the first colon, trimmed *)
Definition value_of (raw : string) : string :=
  strip (snd (split_colon (strip raw))).

(** a non-empty, non-header line that comes before any section header
    or holds no separator *)
Definition malformed (lines : list string) : Prop :=
  ∃ pre raw post,
    lines = pre ++ raw :: post ∧ data_line raw ∧
    (Forall (λ r, ¬ header r) pre ∨ ¬ separated raw).

(** a key line whose key is neither [windows] nor [linux] *)
Definition unknown_key (lines : list string) : Prop :=
  ∃ pre raw post,
    lines = pre ++ raw :: post ∧ data_line raw ∧ separated raw ∧
    key_of raw ∉ keys.

(** section [s] holds key [k]: a key line for [k] whose nearest header
    above it is the header of [s] *)
Definition in_section (lines : list string) (s k : string) : Prop :=
  ∃ pre hd mid raw post,
    lines = pre ++ hd :: mid ++ raw :: post ∧
    header hd ∧ upper (strip hd) = s ∧
    Forall (λ r, ¬ header r) mid ∧
    data_line raw ∧ separated raw ∧ key_of raw = k.

(** section [s] does not hold exactly the key set *)
Definition lacks_keys (lines : list string) (s : string) : Prop :=
  ¬ ∀ k, in_section lines s k ↔ k ∈ keys.

(** a text that holds both sections, each with both keys *)
Definition has_all_keys (lines : list string) : Prop :=
  ∀ s k, s ∈ sections → k ∈ keys → in_section lines s k.

(** the shape of a parsed definition: two sections of two paths each *)
Definition two_by_two (d : gmap string (gmap string string)) : Prop :=
  dom d = list_to_set sections ∧ size d = 2 ∧
  ∀ s, s ∈ sections →
    dom (section_of d s) = list_to_set keys ∧ size (section_of d s) = 2.

(** the section in force after one more line *)
Definition next_section (cur : option string) (raw : string)
  : option string :=
  if mem (upper (strip raw)) sections then Some (upper (strip raw)) else cur.

(** the section in force after the lines [pre], starting from [cur] *)
Definition current_after (cur : option string) (pre : list string)
  : option string :=
  fold_left next_section pre cur.

(** some line is rejected by a scan that starts in section [cur] *)
Definition rejected_from (cur : option string) (lines : list string)
  : Prop :=
  ∃ pre raw post,
    lines = pre ++ raw :: post ∧ data_line raw ∧
    (current_after cur pre = None ∨ ¬ separated raw ∨ key_of raw ∉ keys).

(** some key line for [k] lies in section [s], for a scan that starts in
    section [cur] *)
Definition key_line_from (cur : option string) (lines : list string)
    (s k : string) : Prop :=
  ∃ pre raw post,
    lines = pre ++ raw :: post ∧ data_line raw ∧ separated raw ∧
    key_of raw = k ∧ current_after cur pre = Some s.

End DefinitionText.

(** ** Python values and the newest-side flags of [main] *)

(** The values that flow through the two flag expressions of [main]:
    [None], a [bool], a [datetime] (naive local time, as its count on the
    local calendar, which orders it as its fields do), and the
    [TypeError] that comparing [None] with [>] would raise. *)
Inductive pyval : Type :=
  | PyNone
  | PyBool (b : bool)
  | PyDatetime (t : Z)
  | PyTypeError.

(** truth value testing: [None] and [False] are false, a [datetime] is
    always true *)
Definition truthy (v : pyval) : bool :=
  match v with
  | PyNone => false
  | PyBool b => b
  | PyDatetime _ => true
  | PyTypeError => false
  end.

(** [a and b], [a or b]: the right operand is evaluated only on demand *)
Definition py_and (a : pyval) (b : unit → pyval) : pyval :=
  if truthy a then b () else a.
Definition py_or (a : pyval) (b : unit → pyval) : pyval :=
  if truthy a then a else b ().
Definition py_not (a : pyval) : pyval := PyBool (negb (truthy a)).

(** [a > b], defined between two [datetime]s *)
Definition py_gt (a b : pyval) : pyval :=
  match a, b with
  | PyDatetime x, PyDatetime y => PyBool (Z.gtb x y)
  | _, _ => PyTypeError
  end.

(** an [Optional[datetime]] as a Python value *)
Definition of_time (t : option Z) : pyval :=
  match t with Some x => PyDatetime x | None => PyNone end.

(** [(a and b and a > b) or (a and not b)]: with [a = w_time], [b = l_time]
    this is [newer_is_win], with the two swapped it is [newer_is_lin]. *)
Definition newer_flag (a b : pyval) : pyval :=
  py_or (py_and a (λ _, py_and b (λ _, py_gt a b)))
        (λ _, py_and a (λ _, py_not b)).

Definition newer_is_win (w_time l_time : option Z) : pyval :=
  newer_flag (of_time w_time) (of_time l_time).
Definition newer_is_lin (w_time l_time : option Z) : pyval :=
  newer_flag (of_time l_time) (of_time w_time).

(** the rule of the specification: a side is newest when both times
    exist and its own is strictly greater, or when its own exists and the
    other is absent *)
Definition newest_side (own other : option Z) : bool :=
  match own, other with
  | Some x, Some y => Z.gtb x y
  | Some _, None => true
  | None, _ => false
  end.

Definition NEWEST_TAG : string := "  (latest)".

(** [s.lstrip("0")] *)
Fixpoint lstrip_zero (s : string) : string :=
  match s with
  | EmptyString => EmptyString
  | String c r => if code c =? 48 then lstrip_zero r else s
  end.

(** [fmt_time]; [strftime t] stands for [t.strftime(DT_FORMAT)] *)
Definition fmt_time (strftime : Z → string) (t : option Z) (newest : pyval)
  : string :=
  match t with
  | None => "N/A"
  | Some x =>
      lstrip_zero (strftime x) +:+
      (if truthy newest then NEWEST_TAG else EmptyString)
  end.

(** the two lines that [main] prints for the two sides *)
Definition show_windows (strftime : Z → string) (w_time l_time : option Z)
  : string :=
  fmt_time strftime w_time (newer_is_win w_time l_time).
Definition show_linux (strftime : Z → string) (w_time l_time : option Z)
  : string :=
  fmt_time strftime l_time (newer_is_lin w_time l_time).

(** ** Paths *)

(** A path is the list of its components below the root. *)
Definition path : Type := list string.

Fixpoint path_eqb (p q : path) : bool :=
  match p, q with
  | [], [] => true
  | a :: p', b :: q' => String.eqb a b && path_eqb p' q'
  | _, _ => false
  end.

(** [p] is [q] or lies above it *)
Fixpoint is_prefix (p q : path) : bool :=
  match p, q with
  | [], _ => true
  | a :: p', b :: q' => String.eqb a b && is_prefix p' q'
  | _ :: _, [] => false
  end.

Definition path_mem (p : path) (ps : list path) : bool :=
  existsb (path_eqb p) ps.

(** the components of a string between its [/] separators *)
Fixpoint split_slash (s : string) (cur : string) : list string :=
  match s with
  | EmptyString => [cur]
  | String c r =>
      if code c =? 47 then cur :: split_slash r EmptyString
      else split_slash r (cur +:+ String c EmptyString)
  end.

(** [Path(s)]: empty components and [.] are dropped; every path is read
    from the root. *)
Definition Path (s : string) : path :=
  List.filter (λ c, negb (is_empty c) && negb (String.eqb c "."))
    (split_slash s EmptyString).

(** [p.name], [p.parent], [p / name] for a single component [name] *)
Definition path_name (p : path) : string := List.last p EmptyString.
Definition path_parent (p : path) : path := removelast p.
Definition path_child (p : path) (c : string) : path := p ++ [c].

Fixpoint join_slash (p : path) : string :=
  match p with
  | [] => EmptyString
  | c :: p' => "/" +:+ c +:+ join_slash p'
  end.

(** [str(p)] *)
Definition show_path (p : path) : string :=
  match p with [] => "/" | _ => join_slash p end.

(** ** Exceptions and outcomes *)

Inductive exn : Type :=
  | FileNotFoundError
  | FileExistsError
  | NotADirectoryError
  | IsADirectoryError
  | PermissionError
  | OSError (errno : string)
  | ShutilError (msg : string)
  | KeyError (key : string)
  | ValueError (msg : string).

(** [except FileNotFoundError] *)
Definition is_FileNotFoundError (e : exn) : bool :=
  match e with FileNotFoundError => true | _ => false end.

(** [except OSError]: every exception of the file system, [shutil.Error]
    included, is an [OSError]; [KeyError] and [ValueError] are not *)
Definition is_OSError (e : exn) : bool :=
  match e with KeyError _ | ValueError _ => false | _ => true end.

(** [except Exception] *)
Definition is_Exception (e : exn) : bool := true.

(** [str(e)] *)
Definition show_exn (e : exn) : string :=
  match e with
  | FileNotFoundError => "No such file or directory"
  | FileExistsError => "File exists"
  | NotADirectoryError => "Not a directory"
  | IsADirectoryError => "Is a directory"
  | PermissionError => "Permission denied"
  | OSError errno => errno
  | ShutilError msg => msg
  | KeyError key => key
  | ValueError msg => msg
  end.

Inductive outcome (A : Type) : Type :=
  | Return (a : A)
  | Raise (e : exn).
Arguments Return {A} a.
Arguments Raise {A} e.

(** ** The file system, as the script reaches it

    One operation per library call of the script; [shutil.move] is built
    from [os.rename], [shutil.copytree], [shutil.rmtree], [shutil.copy2]
    and [os.unlink] as in the Python library. A query returns its answer
    or raises; an update returns the new file system together with its
    outcome, so that a failed update can leave changes behind. Symbolic
    links are not modelled. *)
Class FileSystem (FS : Type) : Type := {
  (** [p.exists()], [p.is_dir()], [p.is_file()] *)
  path_exists : FS → path → outcome bool;
  path_is_dir : FS → path → outcome bool;
  path_is_file : FS → path → outcome bool;
  (** [datetime.fromtimestamp(p.stat().st_mtime)]: the modification time
      as the naive local [datetime] that the script compares, given by
      its count on the local calendar; it raises when [stat] does and
      when the conversion does *)
  stat_mtime : FS → path → outcome Z;
  (** [p.rglob("*")]: the paths the generator yields, and the exception it
      ends with, if any *)
  rglob : FS → path → list path * option exn;
  (** [os.path.isdir], [os.path.exists]: [False] on any error *)
  os_path_isdir : FS → path → bool;
  os_path_exists : FS → path → bool;
  (** [p.mkdir(parents=True, exist_ok=True)] *)
  mkdir_parents : FS → path → FS * outcome unit;
  (** [os.rename(src, dst)] *)
  os_rename : FS → path → path → FS * outcome unit;
  (** [shutil.copytree(src, dst, dirs_exist_ok=ok)] *)
  copytree : FS → path → path → bool → FS * outcome unit;
  (** [shutil.rmtree(p)] *)
  rmtree : FS → path → FS * outcome unit;
  (** [shutil.copy2(src, dst)] *)
  copy2 : FS → path → path → FS * outcome unit;
  (** [os.unlink(p)] *)
  unlink : FS → path → FS * outcome unit;
}.

(** ** Wall-clock time *)

(** [datetime.now()] *)
Record datetime : Type := {
  year : nat; month : nat; day : nat;
  hour : nat; minute : nat; second : nat;
  microsecond : nat;
}.

Definition digit (n : nat) : ascii := ascii_of_nat (48 + n mod 10).

(** a number in two and in four decimal digits, zero-padded *)
Definition pad2 (n : nat) : string :=
  String (digit (n / 10)) (String (digit n) EmptyString).
Definition pad4 (n : nat) : string :=
  String (digit (n / 1000)) (String (digit (n / 100)) (pad2 n)).

(** [t.strftime("%Y-%m-%d_%H-%M-%S")] *)
Definition stamp_of (t : datetime) : string :=
  pad4 (year t) +:+ "-" +:+ pad2 (month t) +:+ "-" +:+ pad2 (day t) +:+ "_" +:+
  pad2 (hour t) +:+ "-" +:+ pad2 (minute t) +:+ "-" +:+ pad2 (second t).

(** ** The script *)

Definition LF : string := String "010"%char EmptyString.

Section Script.

Context {FS : Type} `{FileSystem FS}.

(** [TRASH_DIR = Path(__file__).with_name("Trash")] *)
Variable TRASH_DIR : path.

(** What a run acts on: the file system and the console. *)
Record world : Type := World { files : FS; printed : list string }.

(** A computation returns or raises, and leaves a world behind. *)
Definition M (A : Type) : Type := world → world * outcome A.

Definition ret {A} (a : A) : M A := λ w, (w, Return a).
Definition raise {A} (e : exn) : M A := λ w, (w, Raise e).
Definition bind {A B} (m : M A) (k : A → M B) : M B :=
  λ w, match m w with
       | (w', Return a) => k a w'
       | (w', Raise e) => (w', Raise e)
       end.

(** [try: m  except <class>: handler] *)
Definition try_except {A} (m : M A) (catches : exn → bool)
    (handler : exn → M A) : M A :=
  λ w, match m w with
       | (w', Return a) => (w', Return a)
       | (w', Raise e) => if catches e then handler e w' else (w', Raise e)
       end.

(** [try: m  except <class>: handler  else: orelse] *)
Definition try_except_else {A B} (m : M A) (catches : exn → bool)
    (handler : exn → M B) (orelse : A → M B) : M B :=
  λ w, match m w with
       | (w', Return a) => orelse a w'
       | (w', Raise e) => if catches e then handler e w' else (w', Raise e)
       end.

(** a step that does not look at the world *)
Definition pure {A} (r : outcome A) : M A := λ w, (w, r).

Definition query {A} (f : FS → outcome A) : M A :=
  λ w, (w, f (files w)).
Definition total {A} (f : FS → A) : M A :=
  λ w, (w, Return (f (files w))).
Definition update (f : FS → FS * outcome unit) : M unit :=
  λ w, let '(fs', r) := f (files w) in
       (World fs' (printed w), r).

(** [print(line)] *)
Definition print (line : string) : M unit :=
  λ w, (World (files w) (printed w ++ [line]), Return tt).

Notation "x <- m ;; k" := (bind m (λ x, k))
  (at level 100, m at next level, k at level 200, right associativity).

(** *** [shutil.move(src, dst)]

    As in the Python library: a destination that is a directory receives
    the source under its own name; the move is one [os.rename], and when
    the rename is refused with an [OSError] (as it is across file
    systems) the source is copied to the destination and then removed. *)
Definition shutil_move (src dst : path) : M unit :=
  isdir <- total (λ fs, os_path_isdir fs dst) ;;
  if isdir && path_eqb src dst then update (λ fs, os_rename fs src dst)
  else
    real_dst <-
      (if isdir then
         let real := path_child dst (path_name src) in
         taken <- total (λ fs, os_path_exists fs real) ;;
         if taken
         then raise (ShutilError
                ("Destination path '" +:+ show_path real +:+ "' already exists"))
         else ret real
       else ret dst) ;;
    try_except (update (λ fs, os_rename fs src real_dst)) is_OSError
      (λ _,
         srcdir <- total (λ fs, os_path_isdir fs src) ;;
         if srcdir then
           if is_prefix src dst
           then raise (ShutilError
                  ("Cannot move a directory '" +:+ show_path src +:+
                   "' into itself '" +:+ show_path dst +:+ "'."))
           else
             _ <- update (λ fs, copytree fs src real_dst false) ;;
             update (λ fs, rmtree fs src)
         else
           _ <- update (λ fs, copy2 fs src real_dst) ;;
           update (λ fs, unlink fs src)).

(** *** [backup(dst, game)]; [now] is what [datetime.now()] returns *)
Definition backup (now : datetime) (dst : path) (game : string) : M unit :=
  there <- query (λ fs, path_exists fs dst) ;;
  if negb there then ret tt
  else
    let stamp := stamp_of now in
    let dest := path_child (path_child TRASH_DIR stamp) game in
    _ <- update (λ fs, mkdir_parents fs dest) ;;
    _ <- shutil_move dst (path_child dest (path_name dst)) ;;
    print ("🔄 Previous data moved to " +:+ show_path dest).

(** *** [copy(src, dst)] *)
Definition copy (src dst : path) : M unit :=
  isdir <- query (λ fs, path_is_dir fs src) ;;
  if isdir then update (λ fs, copytree fs src dst true)
  else
    _ <- update (λ fs, mkdir_parents fs (path_parent dst)) ;;
    update (λ fs, copy2 fs src dst).

(** *** [latest_mtime(path)] *)

(** the body of the [for p in path.rglob("*")] loop, over the paths the
    generator yields *)
Fixpoint scan_newest (ps : list path) (newest : Z) : M Z :=
  match ps with
  | [] => ret newest
  | p :: rest =>
      newest' <-
        try_except
          (t <- query (λ fs, stat_mtime fs p) ;;
           ret (if Z.gtb t newest then t else newest))
          is_FileNotFoundError
          (λ _, ret newest) ;;
      scan_newest rest newest'
  end.

Definition latest_mtime (p : path) : M (option Z) :=
  try_except
    (there <- query (λ fs, path_exists fs p) ;;
     if negb there then ret None
     else
       isfile <- query (λ fs, path_is_file fs p) ;;
       if isfile then
         t <- query (λ fs, stat_mtime fs p) ;;
         ret (Some t)
       else
         newest <- query (λ fs, stat_mtime fs p) ;;
         found <- total (λ fs, rglob fs p) ;;
         newest' <- scan_newest (fst found) newest ;;
         match snd found with
         | Some e => raise e
         | None => ret (Some newest')
         end)
    is_Exception
    (λ _, ret None).

(** what the loop of [latest_mtime] computes from the outcomes of the
    [stat] calls on the listed paths: an entry that is gone is skipped,
    any other exception ends the loop *)
Fixpoint newest_over (stats : list (outcome Z)) (newest : Z) : outcome Z :=
  match stats with
  | [] => Return newest
  | Return t :: rest => newest_over rest (if Z.gtb t newest then t else newest)
  | Raise e :: rest =>
      if is_FileNotFoundError e then newest_over rest newest else Raise e
  end.

(** Modelled on the words of the specification, to compare with
    [latest_mtime]: every failure on an entry of the scan skips that entry,
    and the result is [None] only when the path itself cannot be
    inspected. *)
Definition latest_mtime_skipping (fs : FS) (p : path) : option Z :=
  match path_exists fs p, stat_mtime fs p with
  | Return true, Return t0 =>
      Some (fold_left
              (λ newest q,
                 match stat_mtime fs q with
                 | Return t => if Z.gtb t newest then t else newest
                 | Raise _ => newest
                 end)
              (rglob fs p).1 t0)
  | _, _ => None
  end.

(** *** [perform(defs, current_os, direction, game)] *)

(** [defs[section][key]], raising [KeyError] on a missing key *)
Definition subscript (defs : gmap string (gmap string string))
    (section key : string) : outcome string :=
  match defs !! section with
  | None => Raise (KeyError section)
  | Some sec =>
      match sec !! key with
      | None => Raise (KeyError key)
      | Some v => Return v
      end
  end.

(** the first lines of [perform]: the source and target paths *)
Definition resolve (defs : gmap string (gmap string string))
    (current_os direction : string) : outcome (path * path) :=
  let section := upper current_os in
  let '(src_key, dst_key) :=
    if String.eqb direction "windows→linux"
    then ("windows", "linux") else ("linux", "windows") in
  match subscript defs section src_key with
  | Raise e => Raise e
  | Return src =>
      match subscript defs section dst_key with
      | Raise e => Raise e
      | Return dst => Return (Path src, Path dst)
      end
  end.

(** the lines of the summary banner *)
Definition summary (direction game : string) (src dst : path) : list string :=
  [ LF +:+ "=== SYNC SUMMARY ==================================================";
    "  Game      : " +:+ game;
    "  Direction : " +:+ direction;
    "  Source    : " +:+ show_path src;
    "  Target    : " +:+ show_path dst;
    "===================================================================" ].

Definition print_summary (direction game : string) (src dst : path)
  : M unit :=
  _ <- print (LF +:+ "=== SYNC SUMMARY ==================================================") ;;
  _ <- print ("  Game      : " +:+ game) ;;
  _ <- print ("  Direction : " +:+ direction) ;;
  _ <- print ("  Source    : " +:+ show_path src) ;;
  _ <- print ("  Target    : " +:+ show_path dst) ;;
  print "===================================================================".

Definition perform (now : datetime)
    (defs : gmap string (gmap string string))
    (current_os direction game : string) : M unit :=
  sd <- pure (resolve defs current_os direction) ;;
  let '(src, dst) := sd in
  _ <- print_summary direction game src dst ;;
  there <- query (λ fs, path_exists fs src) ;;
  if negb there then
    print "❌  Source path does not exist – aborting."
  else
    _ <- backup now dst game ;;
    try_except_else
      (copy src dst)
      is_Exception
      (λ e, print ("❌  Copy failed: " +:+ show_exn e))
      (λ _, print "✅  Sync complete.").

End Script.

Arguments world FS : clear implicits.
Arguments World {FS} files printed.
Arguments M FS A : clear implicits.

(** ** An in-memory file system

    A tree of directories and regular files. The entries of a directory
    are a finite map from names to nodes. A modification time is a POSIX
    timestamp, counted in microseconds. Modification times of parent
    directories are not refreshed when an entry is added or removed, and
    nothing here is refused for lack of permission: refusals are the
    business of [FaultyFS] below. *)
Module MemFS.

#[warnings="-register-all"]
Inductive node : Type :=
  | File (mtime : Z) (data : list Byte.byte)
  | Dir (mtime : Z) (entries : gmap string node).

(** the local time of the machine: the offset of its time zone from
    UTC and the changes of that offset in the order of time, each with
    the timestamp from which it is in force, and the first and the last
    timestamp that the C library of the platform converts; all are
    counted in microseconds *)
Record platform : Type := Platform {
  offset : Z;
  changes : list (Z * Z);
  earliest : Z;
  latest : Z;
}.

(** UTC, with a [time_t] of 64 bits *)
Definition utc : platform :=
  Platform 0 [] (-9223372036854775808000000) 9223372036854775807999999.

(** the file system: its root node, the time given to directories made
    during the run, and the local time of the machine *)
Record t : Type := Make {
  root : node;
  clock : Z;
  os : platform;
}.

(** the offset from UTC in force at the timestamp [ts] *)
Fixpoint offset_at (current : Z) (changes : list (Z * Z)) (ts : Z) : Z :=
  match changes with
  | [] => current
  | (from, next) :: later =>
      if (ts <? from)%Z then current else offset_at next later ts
  end.

(** [datetime.min] and [datetime.max], the first microsecond of the year
    1 and the last of the year 9999, counted from 1970-01-01 00:00:00 *)
Definition datetime_min : Z := -62135596800000000.
Definition datetime_max : Z := 253402300799999999.

(** the naive local [datetime] at the timestamp [ts], as its count of
    microseconds on the local calendar: the offset in force is added;
    there is none when the platform does not convert the timestamp or
    when the year would lie outside 1..9999 *)
Definition localtime (fs : t) (ts : Z) : option Z :=
  let local := (ts + offset_at (offset (os fs)) (changes (os fs)) ts)%Z in
  if (earliest (os fs) <=? ts)%Z && (ts <=? latest (os fs))%Z &&
     (datetime_min <=? local)%Z && (local <=? datetime_max)%Z
  then Some local else None.

(** [datetime.fromtimestamp(ts)]; the [OverflowError] and the [OSError]
    of a timestamp that the platform does not convert are not told apart
    from the [ValueError] of a year out of range: the handlers of
    [latest_mtime] treat the three alike *)
Definition fromtimestamp (fs : t) (ts : Z) : outcome Z :=
  match localtime fs ts with
  | Some t => Return t
  | None => Raise (ValueError "year is out of range")
  end.

Definition is_some {A} (x : option A) : bool :=
  match x with Some _ => true | None => false end.

Definition mtime_of (n : node) : Z :=
  match n with File m _ => m | Dir m _ => m end.

Definition is_dir_node (n : node) : bool :=
  match n with Dir _ _ => true | File _ _ => false end.

Definition entries_of (n : node) : gmap string node :=
  match n with Dir _ es => es | File _ _ => ∅ end.

(** the number of nodes of a tree *)
Fixpoint node_size (n : node) : nat :=
  match n with
  | File _ _ => 1
  | Dir _ es => S (map_fold (λ _ c acc, node_size c + acc) 0 es)
  end.

(** the node at path [p] below [n] *)
Fixpoint lookup (p : path) (n : node) : option node :=
  match p with
  | [] => Some n
  | c :: p' =>
      match n with
      | File _ _ => None
      | Dir _ es =>
          match es !! c with
          | Some n' => lookup p' n'
          | None => None
          end
      end
  end.

(** replace what is at [p] by [x] ([None] removes it); nothing changes
    when the directory that should hold [p] is missing *)
Fixpoint place (p : path) (x : option node) (n : node) : node :=
  match p with
  | [] => match x with Some n' => n' | None => n end
  | [c] =>
      match n with
      | File _ _ => n
      | Dir m es =>
          Dir m (match x with Some n' => <[c := n']> es | None => delete c es end)
      end
  | c :: p' =>
      match n with
      | File _ _ => n
      | Dir m es =>
          match es !! c with
          | Some n' => Dir m (<[c := place p' x n']> es)
          | None => n
          end
      end
  end.

(** a chain of new, empty directories *)
Fixpoint fresh_dirs (now : Z) (p : path) : node :=
  match p with
  | [] => Dir now ∅
  | c :: p' => Dir now {[ c := fresh_dirs now p' ]}
  end.

(** [mkdir(parents=True, exist_ok=True)] below [n]: a regular file at the
    path itself is [FileExistsError], one on the way is
    [NotADirectoryError]; in both cases nothing is created *)
Fixpoint mkdirs (now : Z) (p : path) (n : node) : outcome node :=
  match p with
  | [] =>
      match n with
      | Dir _ _ => Return n
      | File _ _ => Raise FileExistsError
      end
  | c :: p' =>
      match n with
      | File _ _ => Raise NotADirectoryError
      | Dir m es =>
          match es !! c with
          | None => Return (Dir m (<[c := fresh_dirs now p']> es))
          | Some n' =>
              match mkdirs now p' n' with
              | Return n'' => Return (Dir m (<[c := n'']> es))
              | Raise e => Raise e
              end
          end
      end
  end.

(** [p.rglob("*")] below a node: the entries of the directory, then
    those found by descending into each of them *)
Fixpoint descendants (n : node) : list path :=
  match n with
  | File _ _ => []
  | Dir _ es =>
      map_fold (λ k _ acc, [k] :: acc) [] es ++
      map_fold (λ k c acc, (cons k <$> descendants c) ++ acc) [] es
  end.

(** [shutil.copy2] of a regular file onto what is at the destination
    ([d]): a directory there receives the file under its own name *)
Definition copy2_node (name : string) (m : Z) (data : list Byte.byte)
    (d : option node) : option node * option exn :=
  match d with
  | Some (Dir dm des) =>
      match des !! name with
      | Some (Dir _ _) => (d, Some IsADirectoryError)
      | _ => (Some (Dir dm (<[name := File m data]> des)), None)
      end
  | _ => (Some (File m data), None)
  end.

(** [shutil.copytree(src, dst, dirs_exist_ok=ok)] of the node [s] onto
    what is at the destination ([d]): the new destination, and the
    exception raised, if any. A failure on one entry does not stop the
    copy of the others; it is reported by [shutil.Error] at the end.
    The source is read as it is when the copy starts, which is what
    [shutil.copytree] does as long as the destination does not lie inside
    the source: there it would go on into what it has just created. *)
Fixpoint copy_node (ok : bool) (name : string) (s : node) (d : option node)
  : option node * option exn :=
  match s with
  | File m data => copy2_node name m data d
  | Dir m es =>
      match d with
      | Some (File _ _) => (d, Some FileExistsError)
      | _ =>
          if negb ok && is_some d then (d, Some FileExistsError)
          else
            let des := from_option entries_of ∅ d in
            let '(des', failed) :=
              map_fold
                (λ k c '(acc, failed),
                   match copy_node ok k c (des !! k) with
                   | (Some c', e) =>
                       (<[k := c']> acc, failed || is_some e)
                   | (None, e) => (acc, failed || is_some e)
                   end)
                (des, false) es in
            (Some (Dir m des'),
             if failed then Some (ShutilError "errors while copying a tree")
             else None)
      end
  end.

Definition exists_b (fs : t) (p : path) : bool :=
  is_some (lookup p (root fs)).
Definition is_dir_b (fs : t) (p : path) : bool :=
  from_option is_dir_node false (lookup p (root fs)).
Definition is_file_b (fs : t) (p : path) : bool :=
  from_option (λ n, negb (is_dir_node n)) false (lookup p (root fs)).

Definition with_root (fs : t) (n : node) : t :=
  Make n (clock fs) (os fs).

(** [datetime.fromtimestamp(p.stat().st_mtime)] *)
Definition stat (fs : t) (p : path) : outcome Z :=
  match lookup p (root fs) with
  | Some n => fromtimestamp fs (mtime_of n)
  | None => Raise FileNotFoundError
  end.

Definition glob (fs : t) (p : path) : list path * option exn :=
  match lookup p (root fs) with
  | Some n => ((λ q, p ++ q) <$> descendants n, None)
  | None => ([], None)
  end.

Definition mkdir (fs : t) (p : path) : t * outcome unit :=
  match mkdirs (clock fs) p (root fs) with
  | Return n => (with_root fs n, Return tt)
  | Raise e => (fs, Raise e)
  end.

(** [os.rename(src, dst)] with the rules of POSIX: an existing
    destination is replaced when it is a regular file (and the source is
    one) or an empty directory (and the source is a directory); a
    directory cannot be moved below itself. Either the whole entry is
    renamed or nothing changes. *)
Definition rename (fs : t) (src dst : path) : t * outcome unit :=
  match src, lookup src (root fs) with
  | [], _ => (fs, Raise (OSError "EBUSY"))
  | _, None => (fs, Raise FileNotFoundError)
  | _, Some s =>
      if path_eqb src dst then (fs, Return tt)
      else if is_prefix src dst then (fs, Raise (OSError "EINVAL"))
      else
        match lookup (path_parent dst) (root fs) with
        | None => (fs, Raise FileNotFoundError)
        | Some (File _ _) => (fs, Raise NotADirectoryError)
        | Some (Dir _ _) =>
            let go := (with_root fs (place dst (Some s) (place src None (root fs))),
                       Return tt) in
            match dst, s, lookup dst (root fs) with
            | [], _, _ => (fs, Raise (OSError "EBUSY"))
            | _, _, None => go
            | _, File _ _, Some (File _ _) => go
            | _, File _ _, Some (Dir _ _) => (fs, Raise IsADirectoryError)
            | _, Dir _ _, Some (File _ _) => (fs, Raise NotADirectoryError)
            | _, Dir _ _, Some (Dir _ des) =>
                if Nat.eqb (size des) 0 then go
                else (fs, Raise (OSError "ENOTEMPTY"))
            end
        end
  end.

Definition copy_tree (fs : t) (src dst : path) (ok : bool)
  : t * outcome unit :=
  match lookup src (root fs) with
  | None => (fs, Raise FileNotFoundError)
  | Some (File _ _) => (fs, Raise NotADirectoryError)
  | Some (Dir _ _ as s) =>
      match lookup dst (root fs) with
      | Some (File _ _) => (fs, Raise FileExistsError)
      | d =>
          if negb ok && is_some d then (fs, Raise FileExistsError)
          else
            match mkdirs (clock fs) (path_parent dst) (root fs) with
            | Raise e => (fs, Raise e)
            | Return n =>
                let '(d', e) := copy_node ok (path_name src) s d in
                (with_root fs (place dst d' n),
                 match e with Some e => Raise e | None => Return tt end)
            end
      end
  end.

Definition remove_tree (fs : t) (p : path) : t * outcome unit :=
  match p, lookup p (root fs) with
  | [], _ => (fs, Raise (OSError "EBUSY"))
  | _, None => (fs, Raise FileNotFoundError)
  | _, Some (File _ _) => (fs, Raise NotADirectoryError)
  | _, Some (Dir _ _) => (with_root fs (place p None (root fs)), Return tt)
  end.

Definition copy_file (fs : t) (src dst : path) : t * outcome unit :=
  match lookup src (root fs) with
  | None => (fs, Raise FileNotFoundError)
  | Some (Dir _ _) => (fs, Raise IsADirectoryError)
  | Some (File m data) =>
      let real := if is_dir_b fs dst then path_child dst (path_name src)
                  else dst in
      if path_eqb src real
      then (fs, Raise (ShutilError "source and destination are the same file"))
      else
        match lookup (path_parent real) (root fs), lookup real (root fs) with
        | None, _ => (fs, Raise FileNotFoundError)
        | Some (File _ _), _ => (fs, Raise NotADirectoryError)
        | Some (Dir _ _), Some (Dir _ _) => (fs, Raise IsADirectoryError)
        | Some (Dir _ _), _ =>
            (with_root fs (place real (Some (File m data)) (root fs)), Return tt)
        end
  end.

Definition remove_file (fs : t) (p : path) : t * outcome unit :=
  match lookup p (root fs) with
  | None => (fs, Raise FileNotFoundError)
  | Some (Dir _ _) => (fs, Raise IsADirectoryError)
  | Some (File _ _) => (with_root fs (place p None (root fs)), Return tt)
  end.

End MemFS.

#[export] Instance MemFS_FileSystem : FileSystem MemFS.t := {|
  path_exists fs p := Return (MemFS.exists_b fs p);
  path_is_dir fs p := Return (MemFS.is_dir_b fs p);
  path_is_file fs p := Return (MemFS.is_file_b fs p);
  stat_mtime := MemFS.stat;
  rglob := MemFS.glob;
  os_path_isdir := MemFS.is_dir_b;
  os_path_exists := MemFS.exists_b;
  mkdir_parents := MemFS.mkdir;
  os_rename := MemFS.rename;
  copytree := MemFS.copy_tree;
  rmtree := MemFS.remove_tree;
  copy2 := MemFS.copy_file;
  unlink := MemFS.remove_file;
|}.

(** ** Refusals by the operating system

    The in-memory file system wrapped with the refusals that a real one
    adds: renames that are refused, with [OSError] EXDEV because source
    and destination lie on different file systems or with
    [PermissionError] because the directories may not be changed, entries
    that cannot be removed (a file that is read-only or held open under
    Windows), entries whose [stat] is denied, and entries that are listed
    but gone when looked at. *)
Module FaultyFS.

Record t : Type := Make {
  base : MemFS.t;
  rename_refused : option exn;
  undeletable : list path;
  stat_denied : list path;
  vanished : list path;
}.

Definition with_base (fs : t) (b : MemFS.t) : t :=
  Make b (rename_refused fs) (undeletable fs) (stat_denied fs) (vanished fs).

(** a file system on which nothing is refused *)
Definition plain (b : MemFS.t) : t := Make b None [] [] [].

Definition lift (f : MemFS.t → MemFS.t * outcome unit) (fs : t)
  : t * outcome unit :=
  let '(b, r) := f (base fs) in (with_base fs b, r).

Definition stat (fs : t) (p : path) : outcome Z :=
  if path_mem p (stat_denied fs) then Raise PermissionError
  else if path_mem p (vanished fs) then Raise FileNotFoundError
  else MemFS.stat (base fs) p.

Definition rename (fs : t) (src dst : path) : t * outcome unit :=
  match rename_refused fs with
  | Some e => (fs, Raise e)
  | None => lift (λ b, MemFS.rename b src dst) fs
  end.

(** [shutil.rmtree] below the node [n] at path [p]: entries are removed
    one after the other, a directory after its entries, and the first
    entry that cannot be removed ends the removal with [PermissionError].
    The result is what is left of the node. *)
Fixpoint remove_node (locked : list path) (p : path) (n : MemFS.node)
  : option MemFS.node * option exn :=
  match n with
  | MemFS.File _ _ =>
      if path_mem p locked then (Some n, Some PermissionError)
      else (None, None)
  | MemFS.Dir m es =>
      let '(es', e) :=
        map_fold
          (λ k c '(acc, e),
             match e with
             | Some _ => (acc, e)
             | None =>
                 match remove_node locked (path_child p k) c with
                 | (Some c', e') => (<[k := c']> acc, e')
                 | (None, e') => (delete k acc, e')
                 end
             end)
          (es, None) es in
      match e with
      | Some _ => (Some (MemFS.Dir m es'), e)
      | None =>
          if path_mem p locked then (Some (MemFS.Dir m es'), Some PermissionError)
          else (None, None)
      end
  end.

Definition remove_tree (fs : t) (p : path) : t * outcome unit :=
  match p, MemFS.lookup p (MemFS.root (base fs)) with
  | [], _ => (fs, Raise (OSError "EBUSY"))
  | _, None => (fs, Raise FileNotFoundError)
  | _, Some (MemFS.File _ _) => (fs, Raise NotADirectoryError)
  | _, Some (MemFS.Dir _ _ as n) =>
      let '(rest, e) := remove_node (undeletable fs) p n in
      (with_base fs
         (MemFS.with_root (base fs) (MemFS.place p rest (MemFS.root (base fs)))),
       match e with Some e => Raise e | None => Return tt end)
  end.

Definition remove_file (fs : t) (p : path) : t * outcome unit :=
  if path_mem p (undeletable fs) then (fs, Raise PermissionError)
  else lift (λ b, MemFS.remove_file b p) fs.

End FaultyFS.

#[export] Instance FaultyFS_FileSystem : FileSystem FaultyFS.t := {|
  path_exists fs p := Return (MemFS.exists_b (FaultyFS.base fs) p);
  path_is_dir fs p := Return (MemFS.is_dir_b (FaultyFS.base fs) p);
  path_is_file fs p := Return (MemFS.is_file_b (FaultyFS.base fs) p);
  stat_mtime := FaultyFS.stat;
  rglob fs p := MemFS.glob (FaultyFS.base fs) p;
  os_path_isdir fs p := MemFS.is_dir_b (FaultyFS.base fs) p;
  os_path_exists fs p := MemFS.exists_b (FaultyFS.base fs) p;
  mkdir_parents fs p := FaultyFS.lift (λ b, MemFS.mkdir b p) fs;
  os_rename := FaultyFS.rename;
  copytree fs src dst ok := FaultyFS.lift (λ b, MemFS.copy_tree b src dst ok) fs;
  rmtree := FaultyFS.remove_tree;
  copy2 fs src dst := FaultyFS.lift (λ b, MemFS.copy_file b src dst) fs;
  unlink := FaultyFS.remove_file;
|}.

(** ** Sample inputs *)

Module Samples.

Import MemFS.

(** the template of the script's docstring, filled in *)
Definition sample_definition : string :=
  "WINDOWS" +:+ LF +:+
  "windows: C:/Users/me/AppData/Local/Game/" +:+ LF +:+
  "linux:   D:/Prefixes/Game/pfx/" +:+ LF +:+ LF +:+
  "LINUX" +:+ LF +:+
  "windows: /run/media/me/disk/Game/" +:+ LF +:+
  "linux:   /home/me/.local/share/Game/".

(** a parsed definition whose WINDOWS section maps to [/a] and [/b] *)
Definition sample_defs : gmap string (gmap string string) :=
  <["WINDOWS" := <["windows" := "/a"]> (<["linux" := "/b"]> ∅)]>
    (<["LINUX" := <["windows" := "/mnt/a"]> (<["linux" := "/home/b"]> ∅)]> ∅).

(** a definition whose two WINDOWS paths are the same directory *)
Definition alias_defs : gmap string (gmap string string) :=
  <["WINDOWS" := <["windows" := "/a"]> (<["linux" := "/a"]> ∅)]>
    (<["LINUX" := <["windows" := "/a"]> (<["linux" := "/a"]> ∅)]> ∅).

Definition sample_now : datetime :=
  {| year := 2025; month := 1; day := 2;
     hour := 3; minute := 4; second := 5; microsecond := 6 |}.

Definition trash : path := ["Trash"].

Definition save_dir : node :=
  Dir 2 {[ "save.dat" := File 5 [Byte.x01; Byte.x02] ]}.
Definition old_dir : node :=
  Dir 4 {[ "old.dat" := File 2 [Byte.x00] ]}.

(** [/a] holds a save, [/b] does not exist, the trash is empty *)
Definition fs_fresh : MemFS.t :=
  Make (Dir 1 (<["a" := save_dir]> {[ "Trash" := Dir 3 ∅ ]})) 100 utc.

(** the source [/a] does not exist *)
Definition fs_no_source : MemFS.t :=
  Make (Dir 1 (<["b" := old_dir]> {[ "Trash" := Dir 3 ∅ ]})) 100 utc.

(** both [/a] and [/b] exist *)
Definition fs_both : MemFS.t :=
  Make (Dir 1 (<["a" := save_dir]> (<["b" := old_dir]>
                 {[ "Trash" := Dir 3 ∅ ]}))) 100 utc.

(** as [fs_both], after a backup of [/b] within the same second *)
Definition fs_collision : MemFS.t :=
  Make (Dir 1 (<["a" := save_dir]> (<["b" := old_dir]>
     {[ "Trash" := Dir 3 {[ "2025-01-02_03-04-05" :=
          Dir 100 {[ "game" := Dir 100 {[ "b" := Dir 9 ∅ ]} ]} ]} ]}))) 100 utc.

(** as [fs_both], after two backups of [/b] within the same second *)
Definition fs_collision_twice : MemFS.t :=
  Make (Dir 1 (<["a" := save_dir]> (<["b" := old_dir]>
     {[ "Trash" := Dir 3 {[ "2025-01-02_03-04-05" :=
          Dir 100 {[ "game" := Dir 100 {[ "b" :=
            Dir 9 {[ "b" := Dir 8 ∅ ]} ]} ]} ]} ]}))) 100 utc.

(** a directory that was changed after its three files were written *)
Definition fs_late_dir : MemFS.t :=
  Make (Dir 1 {[ "saves" :=
     Dir 10 (<["s1" := File 1 []]> (<["s2" := File 2 []]>
               {[ "s3" := File 3 [] ]})) ]}) 100 utc.

(** a time zone that is two hours ahead of UTC until the timestamp of
    7200 seconds and one hour ahead from then on: the clocks are set back
    by one hour *)
Definition set_back_zone : platform :=
  Platform 7200000000 [(7200000000, 3600000000)%Z] (earliest utc) (latest utc).

(** three saves written around that change, [s3] after it *)
Definition fs_autumn : MemFS.t :=
  Make (Dir 1 {[ "saves" :=
     Dir 0 (<["s1" := File 6000000000 []]> (<["s2" := File 6600000000 []]>
              {[ "s3" := File 7800000000 [] ]})) ]}) 100 set_back_zone.

(** a save whose modification time lies in the year 10000 *)
Definition fs_far_future : MemFS.t :=
  Make (Dir 1 {[ "save.dat" := File 253402300800000000 [] ]}) 100 utc.

Definition fs_saves : MemFS.t :=
  Make (Dir 1 {[ "saves" :=
     Dir 5 (<["s1" := File 7 []]> {[ "s2" := File 9 [] ]}) ]}) 100 utc.

(** [/saves/s1] is listed, but its [stat] is denied *)
Definition fs_denied : FaultyFS.t :=
  FaultyFS.Make fs_saves None [] [["saves"; "s1"]] [].

(** [/saves/s1] is listed, but gone when looked at *)
Definition fs_vanished : FaultyFS.t :=
  FaultyFS.Make fs_saves None [] [] [["saves"; "s1"]].

Definition two_slots : node :=
  Dir 4 (<["slot1.sav" := File 2 [Byte.x00]]>
           {[ "slot2.sav" := File 3 [Byte.x01] ]}).

(** the trash lies on another file system than [/b], and [/b/slot1.sav]
    cannot be removed *)
Definition fs_cross_device : FaultyFS.t :=
  FaultyFS.Make
    (Make (Dir 1 (<["b" := two_slots]> {[ "Trash" := Dir 3 ∅ ]})) 100 utc)
    (Some (OSError "EXDEV")) [["b"; "slot1.sav"]] [] [].

(** as [fs_both], with the trash on another file system than [/b] *)
Definition fs_other_device : FaultyFS.t :=
  FaultyFS.Make fs_both (Some (OSError "EXDEV")) [] [] [].

(** as [fs_both], with a rename that is refused for lack of permission,
    and [/b/old.dat] cannot be removed *)
Definition fs_read_only : FaultyFS.t :=
  FaultyFS.Make fs_both (Some PermissionError) [["b"; "old.dat"]] [] [].

(** the runs examined below *)
Definition collision_run : world MemFS.t * outcome unit :=
  backup trash sample_now ["b"] "game" (World fs_collision []).
Definition cross_device_run : world FaultyFS.t * outcome unit :=
  backup trash sample_now ["b"] "game" (World fs_cross_device []).
Definition read_only_run : world FaultyFS.t * outcome unit :=
  backup trash sample_now ["b"] "game" (World fs_read_only []).

End Samples.

(** ** Order of backup tags *)

(** lexicographic combination of comparisons *)
Definition lex (c : comparison) (rest : comparison) : comparison :=
  match c with Eq => rest | _ => c end.

(** the order of two datetimes, microseconds left out *)
Definition chronological (a b : datetime) : comparison :=
  lex (Nat.compare (year a) (year b))
 (lex (Nat.compare (month a) (month b))
 (lex (Nat.compare (day a) (day b))
 (lex (Nat.compare (hour a) (hour b))
 (lex (Nat.compare (minute a) (minute b))
      (Nat.compare (second a) (second b)))))).

(** the two datetimes agree up to the second *)
Definition same_second (a b : datetime) : Prop :=
  year a = year b ∧ month a = month b ∧ day a = day b ∧
  hour a = hour b ∧ minute a = minute b ∧ second a = second b.

(** a datetime of the calendar whose year has four digits *)
Definition calendar (t : datetime) : Prop :=
  10 * 100 ≤ year t < 100 * 100 ∧ 1 ≤ month t ≤ 12 ∧ 1 ≤ day t ≤ 31 ∧
  hour t < 24 ∧ minute t < 60 ∧ second t < 60.

(** the sample time, some microseconds later and one minute later *)
Definition sample_now_later : datetime :=
  {| year := 2025; month := 1; day := 2;
     hour := 3; minute := 4; second := 5; microsecond := 900 |}.
Definition sample_next_minute : datetime :=
  {| year := 2025; month := 1; day := 2;
     hour := 3; minute := 5; second := 0; microsecond := 0 |}.

(** ** Where an entry has gone *)

(** between the file systems [fs] and [fs'] the entry [n] has gone from
    [src] to [dst], and what lies beside the two places is as it was *)
Definition relocated (fs fs' : FaultyFS.t) (src dst : path)
    (n : MemFS.node) : Prop :=
  MemFS.lookup dst (MemFS.root (FaultyFS.base fs')) = Some n ∧
  MemFS.lookup src (MemFS.root (FaultyFS.base fs')) = None ∧
  ∀ q, is_prefix src q = false → is_prefix q src = false →
       is_prefix dst q = false → is_prefix q dst = false →
       MemFS.lookup q (MemFS.root (FaultyFS.base fs'))
       = MemFS.lookup q (MemFS.root (FaultyFS.base fs)).

(** * Proofs *)

(** ** The definition parser *)

Lemma mem_true x xs : mem x xs = true ↔ x ∈ xs.
Proof.
  unfold mem. rewrite existsb_exists. split.
  - intros (y & Hy & He). apply String.eqb_eq in He. subst.
    by apply list_elem_of_In.
  - intros H. exists x. split; [by apply list_elem_of_In|apply String.eqb_refl].
Qed.

Lemma mem_false x xs : mem x xs = false ↔ x ∉ xs.
Proof.
  rewrite <- mem_true. destruct (mem x xs); split; congruence.
Qed.

Lemma is_empty_true s : is_empty s = true ↔ s = EmptyString.
Proof. destruct s; simpl; split; congruence. Qed.

Lemma header_dec raw : header raw ∨ ¬ header raw.
Proof. unfold header. destruct (mem _ _); [by left|right; congruence]. Qed.

Lemma current_after_app cur pre post :
  current_after cur (pre ++ post) = current_after (current_after cur pre) post.
Proof. unfold current_after. apply fold_left_app. Qed.

Lemma current_after_no_header cur pre :
  Forall (λ r, ¬ header r) pre → current_after cur pre = cur.
Proof.
  intros H. revert cur. induction H as [|raw pre Hh _ IH]; intros cur; [done|].
  simpl. unfold next_section. unfold header in Hh.
  destruct (mem _ _); [done|]. apply IH.
Qed.

Lemma current_after_None pre :
  current_after None pre = None ↔ Forall (λ r, ¬ header r) pre.
Proof.
  split; [|apply current_after_no_header].
  induction pre as [|raw pre IH] using rev_ind; [constructor|].
  rewrite current_after_app. simpl. unfold next_section. intros H.
  destruct (mem (upper (strip raw)) sections) eqn:E; [done|].
  apply Forall_app. split; [by apply IH|].
  constructor; [|constructor]. unfold header. congruence.
Qed.

Lemma current_after_Some cur pre s :
  current_after cur pre = Some s ↔
  (cur = Some s ∧ Forall (λ r, ¬ header r) pre) ∨
  ∃ p hd mid, pre = p ++ hd :: mid ∧ header hd ∧ upper (strip hd) = s ∧
              Forall (λ r, ¬ header r) mid.
Proof.
  split.
  - induction pre as [|raw pre IH] using rev_ind; [left; by split|].
    rewrite current_after_app. simpl. unfold next_section.
    destruct (mem (upper (strip raw)) sections) eqn:E.
    + intros [= <-]. right. exists pre, raw, []. by repeat split.
    + intros H. destruct (IH H) as [[-> Hf]|(p & hd & mid & -> & Hh & Hs & Hf)].
      * left. split; [done|]. apply Forall_app. split; [done|].
        constructor; [|constructor]. unfold header. congruence.
      * right. exists p, hd, (mid ++ [raw]). repeat split; try done.
        -- by rewrite <- app_assoc.
        -- apply Forall_app. split; [done|].
           constructor; [|constructor]. unfold header. congruence.
  - intros [[-> Hf]|(p & hd & mid & -> & Hh & Hs & Hf)].
    + by apply current_after_no_header.
    + rewrite current_after_app. simpl. unfold next_section.
      unfold header in Hh. rewrite Hh, Hs.
      by apply current_after_no_header.
Qed.

Lemma dom_section_insert (data : gmap string (gmap string string)) cur key val s :
  dom (section_of (<[cur := <[key := val]> (section_of data cur)]> data) s)
  = if decide (s = cur) then {[key]} ∪ dom (section_of data cur)
    else dom (section_of data s).
Proof.
  unfold section_of at 1. destruct (decide (s = cur)) as [->|Hne].
  - rewrite lookup_insert_eq. simpl. by rewrite dom_insert_L.
  - by rewrite lookup_insert_ne.
Qed.

Lemma current_after_cons cur raw pre :
  current_after cur (raw :: pre) = current_after (next_section cur raw) pre.
Proof. reflexivity. Qed.

Lemma data_line_iff raw :
  data_line raw ↔
  is_empty (strip raw) = false ∧ mem (upper (strip raw)) sections = false.
Proof.
  unfold data_line, nonblank, header. rewrite <- is_empty_true.
  destruct (is_empty _), (mem _ _); split; intros [??]; split; congruence.
Qed.

Lemma next_section_data_line cur raw :
  data_line raw → next_section cur raw = cur.
Proof.
  rewrite data_line_iff. intros [_ H]. unfold next_section. by rewrite H.
Qed.

Lemma next_section_blank cur raw :
  is_empty (strip raw) = true → next_section cur raw = cur.
Proof.
  intros H. apply is_empty_true in H. unfold next_section. by rewrite H.
Qed.

Lemma rejected_from_cons cur raw rest :
  rejected_from cur (raw :: rest) ↔
  (data_line raw ∧ (cur = None ∨ ¬ separated raw ∨ key_of raw ∉ keys)) ∨
  rejected_from (next_section cur raw) rest.
Proof.
  unfold rejected_from. split.
  - intros ([|r0 pre] & r & post & [= <- ->] & Hd & Hc); [by left|].
    right. exists pre, r, post. by rewrite current_after_cons in Hc.
  - intros [[Hd Hc]|(pre & r & post & -> & Hd & Hc)].
    + by exists [], raw, rest.
    + exists (raw :: pre), r, post. by rewrite current_after_cons.
Qed.

Lemma key_line_from_cons cur raw rest s k :
  key_line_from cur (raw :: rest) s k ↔
  (data_line raw ∧ separated raw ∧ key_of raw = k ∧ cur = Some s) ∨
  key_line_from (next_section cur raw) rest s k.
Proof.
  unfold key_line_from. split.
  - intros ([|r0 pre] & r & post & [= <- ->] & Hd & Hs & Hk & Hc); [by left|].
    right. exists pre, r, post. by rewrite current_after_cons in Hc.
  - intros [(Hd & Hs & Hk & Hc)|(pre & r & post & -> & Hd & Hs & Hk & Hc)].
    + by exists [], raw, rest.
    + exists (raw :: pre), r, post. by rewrite current_after_cons.
Qed.

Lemma key_line_from_nil cur s k : ¬ key_line_from cur [] s k.
Proof. intros ([|??] & ? & ? & ? & _); done. Qed.

Lemma rejected_from_nil cur : ¬ rejected_from cur [].
Proof. intros ([|??] & ? & ? & ? & _); done. Qed.

(** A failing scan stops at a line that the specification rejects. *)
Lemma scan_error lines cur data e :
  scan lines cur data = inl e → rejected_from cur lines.
Proof.
  revert cur data. induction lines as [|raw rest IH]; intros cur data; [done|].
  rewrite rejected_from_cons. simpl.
  destruct (is_empty (strip raw)) eqn:Eb.
  { intros H. right. rewrite next_section_blank by done. eauto. }
  destruct (mem (upper (strip raw)) sections) eqn:Eh.
  { intros H. right. unfold next_section. rewrite Eh. eauto. }
  assert (data_line raw) as Hdl by (by apply data_line_iff).
  rewrite next_section_data_line by done.
  destruct cur as [cur|]; [|auto].
  destruct (has_colon (strip raw)) eqn:Ec; simpl.
  2:{ intros _. left. split; [done|]. right; left. unfold separated. congruence. }
  destruct (split_colon (strip raw)) as [k v] eqn:Es.
  destruct (mem (lower (strip k)) keys) eqn:Ek; simpl; [eauto|].
  intros _. left. split; [done|]. right; right.
  unfold key_of. rewrite Es. simpl. by apply mem_false.
Qed.

(** A scan that runs to its end met no rejected line, and the keys it
    recorded for a section are those of the key lines of that section. *)
Lemma scan_success lines cur data d :
  scan lines cur data = inr d →
  ¬ rejected_from cur lines ∧
  ∀ s k, k ∈ dom (section_of d s) ↔
         k ∈ dom (section_of data s) ∨ key_line_from cur lines s k.
Proof.
  revert cur data. induction lines as [|raw rest IH]; intros cur data.
  { intros [= <-]. split; [apply rejected_from_nil|].
    intros s k. pose proof (key_line_from_nil cur s k). tauto. }
  simpl. rewrite rejected_from_cons.
  setoid_rewrite key_line_from_cons.
  destruct (is_empty (strip raw)) eqn:Eb.
  { intros H. rewrite next_section_blank by done.
    destruct (IH _ _ H) as [IH1 IH2].
    assert (¬ data_line raw) by (rewrite data_line_iff; intros [??]; congruence).
    split; [tauto|]. intros s k. rewrite IH2. tauto. }
  destruct (mem (upper (strip raw)) sections) eqn:Eh.
  { intros H. unfold next_section. rewrite Eh.
    destruct (IH _ _ H) as [IH1 IH2].
    assert (¬ data_line raw) by (rewrite data_line_iff; intros [??]; congruence).
    split; [tauto|]. intros s k. rewrite IH2. tauto. }
  assert (data_line raw) as Hdl by (by apply data_line_iff).
  rewrite next_section_data_line by done.
  destruct cur as [cur|]; [|done].
  destruct (has_colon (strip raw)) eqn:Ec; simpl; [|done].
  destruct (split_colon (strip raw)) as [k v] eqn:Es.
  destruct (mem (lower (strip k)) keys) eqn:Ek; simpl; [|done].
  assert (key_of raw = lower (strip k)) as Hkey.
  { unfold key_of. by rewrite Es. }
  intros H. destruct (IH _ _ H) as [IH1 IH2]. split.
  - intros [[_ [?|[Hs|Hk]]]|?]; [done| |by apply Hk; rewrite Hkey; apply mem_true|done].
    by apply Hs.
  - intros s k0. rewrite IH2, dom_section_insert.
    destruct (decide (s = cur)) as [->|Hne].
    + rewrite elem_of_union, elem_of_singleton, <- Hkey.
      split.
      * intros [[->|?]|?]; [|by left|by right; right].
        right. left. done.
      * intros [?|[(_ & _ & <- & _)|?]]; [by left; right|by left; left|by right].
    + split.
      * intros [?|?]; [by left|by right; right].
      * intros [?|[(_ & _ & _ & [= ->])|?]]; [by left|done|by right].
Qed.

Lemma separated_dec raw : separated raw ∨ ¬ separated raw.
Proof. unfold separated. destruct (has_colon _); [by left|right; congruence]. Qed.

Lemma rejected_from_start lines :
  rejected_from None lines ↔ malformed lines ∨ unknown_key lines.
Proof.
  split.
  - intros (pre & raw & post & -> & Hd & [Hc|[Hs|Hk]]).
    + left. exists pre, raw, post. rewrite current_after_None in Hc. auto.
    + left. exists pre, raw, post. auto.
    + destruct (separated_dec raw) as [Hs|Hs].
      * right. by exists pre, raw, post.
      * left. exists pre, raw, post. auto.
  - intros [(pre & raw & post & -> & Hd & [Hc|Hs])
           |(pre & raw & post & -> & Hd & Hs & Hk)];
      exists pre, raw, post; (split; [done|]); (split; [done|]); auto.
    left. by apply current_after_None.
Qed.

Lemma key_line_from_start lines s k :
  key_line_from None lines s k ↔ in_section lines s k.
Proof.
  split.
  - intros (pre & raw & post & -> & Hd & Hs & Hk & Hc).
    apply current_after_Some in Hc as [[? _]|(p & hd & mid & -> & Hh & Hu & Hf)];
      [done|].
    exists p, hd, mid, raw, post. rewrite <- app_assoc. done.
  - intros (p & hd & mid & raw & post & -> & Hh & Hu & Hf & Hd & Hs & Hk).
    exists (p ++ hd :: mid), raw, post. rewrite <- app_assoc.
    repeat (split; [done|]). apply current_after_Some. right.
    by exists p, hd, mid.
Qed.

(** The scan adds no section and drops none. *)
Lemma scan_dom lines cur data d :
  scan lines cur data = inr d →
  (∀ s, s ∈ sections → s ∈ dom data) →
  (∀ s, cur = Some s → s ∈ sections) →
  dom d = dom data.
Proof.
  revert cur data. induction lines as [|raw rest IH]; intros cur data.
  { by intros [= <-]. }
  simpl. intros H Hsec Hcur.
  destruct (is_empty (strip raw)); [by eapply IH|].
  destruct (mem (upper (strip raw)) sections) eqn:Eh.
  { eapply IH; [done..|]. intros s [= <-]. by apply mem_true. }
  destruct cur as [cur|]; [|done].
  destruct (has_colon (strip raw)); simpl in H; [|done].
  destruct (split_colon (strip raw)) as [k v].
  destruct (mem (lower (strip k)) keys); simpl in H; [|done].
  assert (cur ∈ dom data) as Hin by auto.
  rewrite (IH _ _ H); [| |done].
  - rewrite dom_insert_L. set_solver.
  - intros s Hs. rewrite dom_insert_L. set_solver.
Qed.

Lemma check_sections_ok ss data d :
  check_sections ss data = inr d ↔
  d = data ∧ ∀ s, s ∈ ss → dom (section_of data s) = list_to_set keys.
Proof.
  induction ss as [|s ss IH]; simpl.
  - split; [intros [= <-]; split; [done|]; intros ? H; inversion H|].
    by intros [-> _].
  - unfold incomplete. case_bool_decide as Hd; simpl.
    + rewrite IH. split; intros [-> H]; (split; [done|]).
      * intros s' [->|?]%elem_of_cons; auto.
      * intros s' ?. apply H. by right.
    + split; [done|]. intros [_ H]. destruct Hd. apply H. by left.
Qed.

Lemma two_sections_size (d : gmap string (gmap string string)) :
  dom d = list_to_set sections → size d = 2.
Proof. intros H. rewrite <- size_dom, H. by vm_compute. Qed.

Lemma two_keys_size (d : gmap string string) :
  dom d = list_to_set keys → size d = 2.
Proof. intros H. rewrite <- size_dom, H. by vm_compute. Qed.

Lemma empty_data_sections : dom empty_data = list_to_set sections.
Proof. unfold empty_data. rewrite !dom_insert_L. set_solver. Qed.

Lemma lacks_keys_dom lines d s :
  (∀ k, k ∈ dom (section_of d s) ↔ in_section lines s k) →
  lacks_keys lines s ↔ dom (section_of d s) ≠ list_to_set keys.
Proof.
  intros Hd. unfold lacks_keys. split.
  - intros Hl He. apply Hl. intros k. rewrite <- Hd, He. set_solver.
  - intros Hne Hall. apply Hne. apply set_eq. intros k.
    rewrite Hd, Hall. set_solver.
Qed.

(** C1. [parse_definition] raises [DefinitionError] exactly when the text
    holds a malformed line (a non-empty, non-header line before any section
    header or without a [:]), or a key line whose key is neither [windows]
    nor [linux], or when one of the two sections does not hold exactly the
    key set; and on a definition text (no malformed line, no unknown key)
    that holds both sections, each with both keys, it succeeds and returns
    two sections of two path strings each. *)
Theorem parse_definition_raises_exactly (text : string) :
  ((∃ e, parse_definition text = inl e) ↔
     malformed (splitlines text) ∨ unknown_key (splitlines text) ∨
     lacks_keys (splitlines text) "WINDOWS" ∨
     lacks_keys (splitlines text) "LINUX") ∧
  (¬ malformed (splitlines text) → ¬ unknown_key (splitlines text) →
   has_all_keys (splitlines text) →
   ∃ d, parse_definition text = inr d ∧ two_by_two d).
Proof.
  unfold parse_definition.
  destruct (scan (splitlines text) None empty_data) as [e|d] eqn:Hscan.
  - apply scan_error, rejected_from_start in Hscan. split.
    + split; [intros _; tauto|eauto].
    + tauto.
  - pose proof (scan_success _ _ _ _ Hscan) as [Hrej Hkeys].
    rewrite rejected_from_start in Hrej.
    assert (∀ s k, k ∈ dom (section_of d s) ↔ in_section (splitlines text) s k)
      as Hdom.
    { intros s k. rewrite Hkeys, key_line_from_start.
      assert (k ∉ dom (section_of empty_data s)); [|tauto].
      unfold section_of, empty_data.
      destruct (decide (s = "WINDOWS")) as [->|?];
        [rewrite lookup_insert_eq; set_solver|rewrite lookup_insert_ne by done].
      destruct (decide (s = "LINUX")) as [->|?];
        [rewrite lookup_insert_eq; set_solver|rewrite lookup_insert_ne by done].
      rewrite lookup_empty. set_solver. }
    assert (dom d = list_to_set sections) as Hd.
    { rewrite <- empty_data_sections. eapply scan_dom; [done| |done].
      intros s Hs. rewrite empty_data_sections. set_solver. }
    split.
    + rewrite !(lacks_keys_dom _ d) by done.
      destruct (check_sections sections d) as [e|d'] eqn:Hc.
      * split; [intros _|eauto]. right; right.
        destruct (decide (dom (section_of d "WINDOWS") = list_to_set keys)) as [Hw|];
          [|by left].
        destruct (decide (dom (section_of d "LINUX") = list_to_set keys)) as [Hl|];
          [|by right].
        assert (check_sections sections d = inr d) as Hok; [|congruence].
        apply check_sections_ok. split; [done|]. intros s Hs.
        unfold sections in Hs. set_solver.
      * apply check_sections_ok in Hc as [-> Hc].
        split; [by intros [??]|]. intros [?|[?|[Hl|Hl]]]; [tauto..| |].
        -- exfalso. apply Hl, Hc. set_solver.
        -- exfalso. apply Hl, Hc. set_solver.
    + intros _ _ Hall.
      assert (∀ s, s ∈ sections → dom (section_of d s) = list_to_set keys) as Hs.
      { intros s Hs. apply set_eq. intros k. rewrite Hdom. split.
        - intros (pre & hd & mid & raw & post & Hl & _ & _ & _ & Hdl & Hsep & Hk).
          destruct (decide (k ∈ keys)) as [|Hn]; [set_solver|].
          exfalso. apply Hrej. apply rejected_from_start.
          rewrite Hl, app_comm_cons, app_assoc.
          eexists _, raw, post. split; [done|]. split; [done|].
          right; right. by rewrite Hk.
        - intros Hk. apply Hall; [done|]. set_solver. }
      exists d. split; [by apply check_sections_ok|].
      split; [done|]. split; [by apply two_sections_size|].
      intros s Hin. split; [auto|]. apply two_keys_size. auto.
Qed.

(** ** The orchestrator, over any file system *)

Section ScriptFacts.

Context {FS : Type} `{FileSystem FS}.
Variable TRASH_DIR : path.

Lemma print_summary_spec direction game src dst (w : world FS) :
  print_summary direction game src dst w
  = (World (files w) (printed w ++ summary direction game src dst), Return tt).
Proof.
  unfold print_summary, bind, print, summary. simpl.
  by rewrite <- !app_assoc.
Qed.

(** the world in which [perform] reaches its source check *)
Lemma perform_unfold now defs current_os direction game src dst (w : world FS) :
  resolve defs current_os direction = Return (src, dst) →
  perform TRASH_DIR now defs current_os direction game w
  = let w1 := World (files w) (printed w ++ summary direction game src dst) in
    match path_exists (files w) src with
    | Raise e => (w1, Raise e)
    | Return false =>
        (World (files w)
           (printed w1 ++ ["❌  Source path does not exist – aborting."]),
         Return tt)
    | Return true =>
        match backup TRASH_DIR now dst game w1 with
        | (w2, Raise e) => (w2, Raise e)
        | (w2, Return _) =>
            match copy src dst w2 with
            | (w3, Return _) =>
                (World (files w3) (printed w3 ++ ["✅  Sync complete."]),
                 Return tt)
            | (w3, Raise e) =>
                (World (files w3)
                   (printed w3 ++ ["❌  Copy failed: " +:+ show_exn e]),
                 Return tt)
            end
        end
    end.
Proof.
  intros Hr. unfold perform, bind at 1, pure. rewrite Hr.
  unfold bind at 1. rewrite print_summary_spec.
  unfold bind at 1, query. simpl.
  destruct (path_exists (files w) src) as [[|]|e]; simpl; [|done..].
  unfold bind, try_except_else.
  destruct (backup _ _ _ _ _) as [w2 [[]|e]]; [|done].
  destruct (copy src dst w2) as [w3 [[]|e]]; done.
Qed.

(** C2. When the resolved source path does not exist, [perform] changes
    nothing in the file system (no backup: the trash area is as it was;
    no copy: the target is as it was): it prints the summary and the
    abort message and returns. *)
Theorem perform_missing_source now defs current_os direction game src dst
    (w : world FS) :
  resolve defs current_os direction = Return (src, dst) →
  path_exists (files w) src = Return false →
  perform TRASH_DIR now defs current_os direction game w
  = (World (files w)
       (printed w ++ summary direction game src dst ++
        ["❌  Source path does not exist – aborting."]),
     Return tt).
Proof.
  intros Hr He. rewrite (perform_unfold _ _ _ _ _ _ _ _ Hr). simpl.
  rewrite He. by rewrite <- app_assoc.
Qed.

(** C4. When the backup step has completed and the copy step then fails
    with any exception, [perform] catches it, prints the failure and
    returns normally; the file system is left exactly as the failed copy
    left it after the backup: nothing is undone. *)
Theorem perform_copy_failure now defs current_os direction game src dst
    (w w2 w3 : world FS) (e : exn) :
  resolve defs current_os direction = Return (src, dst) →
  path_exists (files w) src = Return true →
  backup TRASH_DIR now dst game
    (World (files w) (printed w ++ summary direction game src dst))
  = (w2, Return tt) →
  copy src dst w2 = (w3, Raise e) →
  perform TRASH_DIR now defs current_os direction game w
  = (World (files w3) (printed w3 ++ ["❌  Copy failed: " +:+ show_exn e]),
     Return tt).
Proof.
  intros Hr He Hb Hc. rewrite (perform_unfold _ _ _ _ _ _ _ _ Hr). simpl.
  by rewrite He, Hb, Hc.
Qed.

(** C10. When the backup step raises, [perform] does not catch the
    exception: it leaves [perform] as it left [backup], and neither the
    copy nor a report of a failed sync follows. *)
Theorem perform_backup_failure now defs current_os direction game src dst
    (w w2 : world FS) (e : exn) :
  resolve defs current_os direction = Return (src, dst) →
  path_exists (files w) src = Return true →
  backup TRASH_DIR now dst game
    (World (files w) (printed w ++ summary direction game src dst))
  = (w2, Raise e) →
  perform TRASH_DIR now defs current_os direction game w = (w2, Raise e).
Proof.
  intros Hr He Hb. rewrite (perform_unfold _ _ _ _ _ _ _ _ Hr). simpl.
  by rewrite He, Hb.
Qed.

End ScriptFacts.

(** ** The newest-side flags *)

Lemma newer_flag_truthy (a b : option Z) :
  truthy (newer_flag (of_time a) (of_time b)) = newest_side a b.
Proof.
  destruct a as [x|], b as [y|]; try reflexivity.
  unfold newer_flag, py_or, py_and, py_gt, py_not. simpl.
  by destruct (Z.gtb x y).
Qed.

Lemma newest_side_true (a b : option Z) :
  newest_side a b = true ↔
  (∃ x y, a = Some x ∧ b = Some y ∧ (x > y)%Z) ∨ (∃ x, a = Some x ∧ b = None).
Proof.
  destruct a as [x|], b as [y|]; simpl.
  - rewrite Z.gtb_gt. split; [intros ?; left; eauto|].
    intros [(? & ? & [= <-] & [= <-] & ?)|(? & _ & [=])]. done.
  - split; [intros _; right; eauto|done].
  - split; [done|]. intros [(? & ? & [=] & _)|(? & [=] & _)].
  - split; [done|]. intros [(? & ? & [=] & _)|(? & [=] & _)].
Qed.

(** C8. A side is labelled newest exactly when both timestamps exist and
    its own is strictly greater, or its own exists and the other is
    absent; so no side is labelled when the two are equal or both absent.
    The label is the tag that [fmt_time] appends. *)
Theorem newest_label (w_time l_time : option Z) :
  (truthy (newer_is_win w_time l_time) = true ↔
     (∃ x y, w_time = Some x ∧ l_time = Some y ∧ (x > y)%Z) ∨
     (∃ x, w_time = Some x ∧ l_time = None)) ∧
  (truthy (newer_is_lin w_time l_time) = true ↔
     (∃ x y, l_time = Some x ∧ w_time = Some y ∧ (x > y)%Z) ∨
     (∃ x, l_time = Some x ∧ w_time = None)) ∧
  (w_time = l_time →
     truthy (newer_is_win w_time l_time) = false ∧
     truthy (newer_is_lin w_time l_time) = false) ∧
  newer_is_win w_time l_time ≠ PyTypeError ∧
  newer_is_lin w_time l_time ≠ PyTypeError ∧
  (∀ strftime,
     show_windows strftime w_time l_time
     = match w_time with
       | None => "N/A"
       | Some x => lstrip_zero (strftime x) +:+
                   (if newest_side w_time l_time then NEWEST_TAG else EmptyString)
       end ∧
     show_linux strftime w_time l_time
     = match l_time with
       | None => "N/A"
       | Some x => lstrip_zero (strftime x) +:+
                   (if newest_side l_time w_time then NEWEST_TAG else EmptyString)
       end).
Proof.
  unfold show_windows, show_linux, fmt_time, newer_is_win, newer_is_lin.
  rewrite !newer_flag_truthy, <- !newest_side_true.
  split; [done|]. split; [done|]. split.
  { intros <-. destruct w_time as [x|]; simpl; [|done].
    by rewrite Z.gtb_ltb, Z.ltb_irrefl. }
  split; [|split].
  - destruct w_time as [x|], l_time as [y|]; try done.
    unfold newer_flag, py_or, py_and, py_gt, py_not. simpl.
    by destruct (Z.gtb x y).
  - destruct w_time as [x|], l_time as [y|]; try done.
    unfold newer_flag, py_or, py_and, py_gt, py_not. simpl.
    by destruct (Z.gtb y x).
  - done.
Qed.

(** ** The timestamp inspector, over any file system *)

Section InspectorFacts.

Context {FS : Type} `{FileSystem FS}.

Lemma scan_newest_spec ps newest (w : world FS) :
  scan_newest ps newest w
  = (w, newest_over (stat_mtime (files w) <$> ps) newest).
Proof.
  revert newest. induction ps as [|p ps IH]; intros newest; [done|].
  simpl. unfold bind at 1, try_except, bind, query, ret.
  destruct (stat_mtime (files w) p) as [t|e]; simpl; [apply IH|].
  destruct (is_FileNotFoundError e); [apply IH|done].
Qed.

(** the result of [latest_mtime], step by step *)
Lemma latest_mtime_unfold p (w : world FS) :
  latest_mtime p w
  = (w, Return
       match path_exists (files w) p with
       | Raise _ => None
       | Return false => None
       | Return true =>
           match path_is_file (files w) p with
           | Raise _ => None
           | Return true =>
               match stat_mtime (files w) p with
               | Return t => Some t
               | Raise _ => None
               end
           | Return false =>
               match stat_mtime (files w) p with
               | Raise _ => None
               | Return t0 =>
                   match newest_over
                           (stat_mtime (files w) <$> (rglob (files w) p).1) t0,
                         (rglob (files w) p).2 with
                   | Return t, None => Some t
                   | _, _ => None
                   end
               end
           end
       end).
Proof.
  unfold latest_mtime, try_except, bind, query, total, ret, raise. simpl.
  destruct (path_exists (files w) p) as [[|]|e]; simpl; try done.
  destruct (path_is_file (files w) p) as [[|]|e]; simpl; try done.
  { by destruct (stat_mtime (files w) p). }
  destruct (stat_mtime (files w) p) as [t0|e]; simpl; try done.
  rewrite scan_newest_spec.
  destruct (newest_over _ _); simpl; [|done].
  by destruct (rglob (files w) p).2.
Qed.

End InspectorFacts.

Lemma newest_over_skips (stats : list (outcome Z)) (t0 : Z) :
  Forall (λ r, (∃ t, r = Return t) ∨ r = Raise FileNotFoundError) stats →
  ∃ t, newest_over stats t0 = Return t ∧
       (t0 ≤ t)%Z ∧ (∀ x, Return x ∈ stats → (x ≤ t)%Z) ∧
       (t = t0 ∨ Return t ∈ stats).
Proof.
  intros Hall. revert t0.
  induction Hall as [|r stats Hr _ IH]; intros t0.
  { exists t0. split; [done|]. split; [lia|]. split; [|by left].
    intros ? Hx. inversion Hx. }
  destruct Hr as [[x ->]| ->]; simpl.
  - destruct (IH (if Z.gtb x t0 then x else t0)) as (t & -> & Hle & Hub & Hin).
    exists t. split; [done|]. destruct (Z.gtb_spec x t0).
    + split; [lia|]. split.
      * intros y [[= ->]|?]%elem_of_cons; [done|auto].
      * right. destruct Hin as [->|?]; [by left|by right].
    + split; [lia|]. split.
      * intros y [[= ->]|?]%elem_of_cons; [lia|auto].
      * destruct Hin as [->|?]; [by left|right; by right].
  - destruct (IH t0) as (t & -> & Hle & Hub & Hin).
    exists t. split; [done|]. split; [done|]. split.
    + intros y [[=]|?]%elem_of_cons. auto.
    + destruct Hin as [->|?]; [by left|right; by right].
Qed.

Lemma newest_over_raises (stats : list (outcome Z)) (t0 : Z) (e : exn) :
  Raise e ∈ stats → is_FileNotFoundError e = false →
  ∃ e', newest_over stats t0 = Raise e'.
Proof.
  intros Hin He. revert t0.
  induction stats as [|r stats IH]; intros t0; [inversion Hin|].
  apply elem_of_cons in Hin as [<-|Hin]; simpl.
  - rewrite He. eauto.
  - destruct r as [x|e0]; [by apply IH|].
    destruct (is_FileNotFoundError e0); [by apply IH|eauto].
Qed.

Section InspectorErrors.

Context {FS : Type} `{FileSystem FS}.

(** C6, as the code has it. [latest_mtime] never raises and changes
    nothing. When the path itself can be inspected, an entry of the scan
    whose [stat] raises [FileNotFoundError] is skipped: the result is the
    newest time among the directory and the entries that could be
    inspected. Any other exception on an entry ends the scan and makes
    the result [None]. *)
Theorem latest_mtime_errors (p : path) (w : world FS) :
  (∃ r, latest_mtime p w = (w, Return r)) ∧
  (∀ t0 ps,
     path_exists (files w) p = Return true →
     path_is_file (files w) p = Return false →
     stat_mtime (files w) p = Return t0 →
     rglob (files w) p = (ps, None) →
     ((∀ q, q ∈ ps →
         (∃ t, stat_mtime (files w) q = Return t) ∨
         stat_mtime (files w) q = Raise FileNotFoundError) →
      ∃ t, latest_mtime p w = (w, Return (Some t)) ∧
           (t0 ≤ t)%Z ∧
           (∀ q x, q ∈ ps → stat_mtime (files w) q = Return x → (x ≤ t)%Z) ∧
           (t = t0 ∨ ∃ q, q ∈ ps ∧ stat_mtime (files w) q = Return t)) ∧
     (∀ q e, q ∈ ps → stat_mtime (files w) q = Raise e →
             e ≠ FileNotFoundError →
             latest_mtime p w = (w, Return None))).
Proof.
  split; [rewrite latest_mtime_unfold; eauto|].
  intros t0 ps He Hf Hs Hg. rewrite latest_mtime_unfold, He, Hf, Hs, Hg. simpl.
  split.
  - intros Hall.
    destruct (newest_over_skips (stat_mtime (files w) <$> ps) t0)
      as (t & -> & Hle & Hub & Hin).
    { apply Forall_fmap, Forall_forall. intros q Hq. by apply Hall. }
    exists t. split; [done|]. split; [done|]. split.
    + intros q x Hq Hx. apply Hub. rewrite <- Hx. by apply list_elem_of_fmap_2.
    + destruct Hin as [->|Hin]; [by left|right].
      apply list_elem_of_fmap in Hin as (q & Hq & Hin). eauto.
  - intros q e Hq Hx Hne.
    destruct (newest_over_raises (stat_mtime (files w) <$> ps) t0 e)
      as [e' ->]; [| |done].
    + rewrite <- Hx. by apply list_elem_of_fmap_2.
    + by destruct e.
Qed.

End InspectorErrors.

(** ** The in-memory file system *)

Section MemFSFacts.

Import MemFS.

Lemma node_size_child m (es : gmap string node) k c :
  es !! k = Some c → node_size c < node_size (Dir m es).
Proof.
  intros Hk. simpl.
  rewrite (map_fold_delete_L _ _ k c es); [lia| |done].
  intros; lia.
Qed.

(** induction on trees: a directory inherits from its entries *)
Lemma node_tree_ind (P : node → Prop) :
  (∀ m data, P (File m data)) →
  (∀ m es, (∀ k c, es !! k = Some c → P c) → P (Dir m es)) →
  ∀ n, P n.
Proof.
  intros HF HD.
  assert (∀ k n, node_size n < k → P n) as Hk.
  { induction k as [|k IH]; intros n Hn; [lia|].
    destruct n as [m data|m es]; [apply HF|].
    apply HD. intros j c Hj. apply IH.
    pose proof (node_size_child m es j c Hj). lia. }
  intros n. apply (Hk (S (node_size n))). lia.
Qed.

Lemma lookup_nil n : lookup [] n = Some n.
Proof. done. Qed.

Lemma lookup_cons c p n :
  lookup (c :: p) n = entries_of n !! c ≫= lookup p.
Proof.
  destruct n as [m data|m es]; simpl; [done|]. by destruct (es !! c).
Qed.

Lemma lookup_app p q n : lookup (p ++ q) n = lookup p n ≫= lookup q.
Proof.
  revert n. induction p as [|c p IH]; intros n; [done|].
  rewrite <- app_comm_cons, !lookup_cons.
  destruct (entries_of n !! c) as [n'|]; simpl; [apply IH|done].
Qed.

Lemma lookup_file p m data :
  p ≠ [] → lookup p (File m data) = None.
Proof. by destruct p. Qed.

Lemma elem_of_fold_app {A B} (f : string → A → list B)
    (es : gmap string A) (x : B) :
  x ∈ map_fold (λ k c acc, f k c ++ acc) [] es ↔
  ∃ k c, es !! k = Some c ∧ x ∈ f k c.
Proof.
  rewrite map_fold_foldr.
  assert (∀ l : list (string * A),
            x ∈ foldr (uncurry (λ k c acc, f k c ++ acc)) [] l ↔
            ∃ k c, (k, c) ∈ l ∧ x ∈ f k c) as Hl.
  { induction l as [|[k c] l IH]; simpl.
    - split; [intros Hx; inversion Hx|]. intros (? & ? & Hx & _). inversion Hx.
    - rewrite elem_of_app, IH. split.
      + intros [?|(k' & c' & ? & ?)].
        * exists k, c. split; [by left|done].
        * exists k', c'. split; [by right|done].
      + intros (k' & c' & [[= -> ->]|?]%elem_of_cons & ?); [by left|].
        right. eauto. }
  rewrite Hl. by setoid_rewrite elem_of_map_to_list.
Qed.

(** the scan lists exactly the entries reached by descending *)
Lemma elem_of_descendants n q :
  q ∈ descendants n ↔ q ≠ [] ∧ is_Some (lookup q n).
Proof.
  revert q. induction n as [m data|m es IH] using node_tree_ind; intros q.
  { simpl. split; [intros Hq; inversion Hq|].
    intros [Hq [? Hl]]. by rewrite lookup_file in Hl. }
  cbn [descendants]. rewrite elem_of_app.
  rewrite (elem_of_fold_app (λ k _, [[k]]) es q).
  rewrite (elem_of_fold_app (λ k c, cons k <$> descendants c) es q).
  split.
  - intros [(k & c & Hk & Hq)|(k & c & Hk & Hq)].
    + apply list_elem_of_singleton in Hq as ->. split; [done|].
      simpl. rewrite Hk. eauto.
    + apply list_elem_of_fmap in Hq as (q' & -> & Hq').
      apply (IH _ _ Hk) in Hq' as [_ Hq']. split; [done|].
      simpl. by rewrite Hk.
  - intros [Hq [x Hx]]. destruct q as [|k q]; [done|].
    simpl in Hx. destruct (es !! k) as [c|] eqn:Hk; [|done].
    destruct q as [|k' q].
    + left. exists k, c. split; [done|]. by apply list_elem_of_singleton.
    + right. exists k, c. split; [done|]. apply list_elem_of_fmap_2.
      apply (IH _ _ Hk). split; [done|eauto].
Qed.

#[local] Arguments descendants : simpl never.
#[local] Arguments newest_over : simpl never.

Lemma stat_descendant fs p n q :
  lookup p (root fs) = Some n → q ∈ descendants n →
  ∃ c, lookup q n = Some c ∧ stat fs (p ++ q) = fromtimestamp fs (mtime_of c).
Proof.
  intros Hp [_ [c Hc]]%elem_of_descendants. exists c. split; [done|].
  unfold stat. by rewrite lookup_app, Hp; simpl; rewrite Hc.
Qed.

Lemma fromtimestamp_Return fs ts t :
  fromtimestamp fs ts = Return t ↔ localtime fs ts = Some t.
Proof.
  unfold fromtimestamp. destruct (localtime fs ts); split; congruence.
Qed.

(** the newest time in a directory tree whose times all have a local
    [datetime]: the result of [latest_mtime] on an existing directory
    bounds the local time of every node of the tree and is the local time
    of one of them *)
Lemma latest_mtime_dir fs p out m es :
  lookup p (root fs) = Some (Dir m es) →
  (∀ q c, lookup q (Dir m es) = Some c → is_Some (localtime fs (mtime_of c))) →
  ∃ T, latest_mtime p (World fs out) = (World fs out, Return (Some T)) ∧
       (∀ q c t, lookup q (Dir m es) = Some c →
                 localtime fs (mtime_of c) = Some t → (t ≤ T)%Z) ∧
       (∃ q c, lookup q (Dir m es) = Some c ∧
               localtime fs (mtime_of c) = Some T).
Proof.
  intros Hp Hconv. rewrite latest_mtime_unfold. simpl.
  unfold exists_b, is_file_b, stat, glob. rewrite Hp. simpl.
  set (n := Dir m es) in *.
  destruct (Hconv [] n eq_refl) as [tm Htm]. simpl in Htm.
  unfold fromtimestamp at 1. rewrite Htm.
  destruct (newest_over_skips
              (MemFS.stat fs <$> ((λ q, p ++ q) <$> descendants n)) tm)
    as (T & HT & Hle & Hub & Hin).
  { apply Forall_fmap, Forall_fmap, Forall_forall. intros q Hq. left.
    destruct (stat_descendant fs p n q Hp Hq) as (c & Hc & ->).
    destruct (Hconv q c Hc) as [t Ht]. exists t.
    by apply fromtimestamp_Return. }
  unfold stat in HT. rewrite HT. exists T. split; [done|]. split.
  - intros q c t Hc Ht. destruct q as [|k q].
    { injection Hc as <-. simpl in Ht. congruence. }
    assert (k :: q ∈ descendants n) as Hq.
    { apply elem_of_descendants. split; [done|eauto]. }
    apply Hub. destruct (stat_descendant fs p n _ Hp Hq) as (c' & Hc' & Hst).
    assert (c' = c) as -> by congruence.
    apply fromtimestamp_Return in Ht. rewrite <- Ht, <- Hst.
    apply list_elem_of_fmap_2, list_elem_of_fmap_2, Hq.
  - destruct Hin as [->|Hin]; [by exists [], n|].
    apply list_elem_of_fmap in Hin as (pq & Hs & Hin).
    apply list_elem_of_fmap in Hin as (q & -> & Hq).
    destruct (stat_descendant fs p n q Hp Hq) as (c & Hc & Hst).
    exists q, c. split; [done|]. apply fromtimestamp_Return. congruence.
Qed.

(** one time of the tree without a local [datetime] makes the result
    [None] *)
Lemma latest_mtime_dir_unconvertible fs p out m es q c :
  lookup p (root fs) = Some (Dir m es) →
  lookup q (Dir m es) = Some c → localtime fs (mtime_of c) = None →
  latest_mtime p (World fs out) = (World fs out, Return None).
Proof.
  intros Hp Hc Hnone. rewrite latest_mtime_unfold. simpl.
  unfold exists_b, is_file_b, stat, glob. rewrite Hp. simpl.
  set (n := Dir m es) in *.
  destruct (fromtimestamp fs m) as [tm|e0] eqn:Htm; [|done].
  destruct q as [|k q].
  { injection Hc as <-. simpl in Hnone. unfold fromtimestamp in Htm.
    by rewrite Hnone in Htm. }
  assert (k :: q ∈ descendants n) as Hq.
  { apply elem_of_descendants. split; [done|eauto]. }
  destruct (stat_descendant fs p n _ Hp Hq) as (c' & Hc' & Hst).
  assert (c' = c) as -> by congruence.
  destruct (newest_over_raises
              (MemFS.stat fs <$> ((λ q, p ++ q) <$> descendants n)) tm
              (ValueError "year is out of range")) as [e' He']; [|done|].
  - assert (stat fs (p ++ k :: q) = Raise (ValueError "year is out of range"))
      as <-.
    { rewrite Hst. unfold fromtimestamp. by rewrite Hnone. }
    apply list_elem_of_fmap_2, list_elem_of_fmap_2, Hq.
  - unfold stat in He'. by rewrite He'.
Qed.

Lemma lookup_three_files q m a b c (x y z : node) n :
  a ≠ b → a ≠ c → b ≠ c →
  is_dir_node x = false → is_dir_node y = false → is_dir_node z = false →
  lookup q (Dir m (<[a := x]> (<[b := y]> {[c := z]}))) = Some n →
  n = Dir m (<[a := x]> (<[b := y]> {[c := z]})) ∨ n = x ∨ n = y ∨ n = z.
Proof.
  intros Hab Hac Hbc Hx Hy Hz. destruct q as [|k q]; [intros [= <-]; by left|].
  simpl.
  assert (∀ f, is_dir_node f = false → lookup q f = Some n → n = f) as Hfile.
  { intros [??|??] Hf; [|done]. destruct q; [by intros [= <-]|done]. }
  destruct (decide (k = a)) as [->|?].
  { rewrite lookup_insert_eq. intros ?%Hfile; auto. }
  rewrite lookup_insert_ne by done. destruct (decide (k = b)) as [->|?].
  { rewrite lookup_insert_eq. intros ?%Hfile; auto. }
  rewrite lookup_insert_ne by done. destruct (decide (k = c)) as [->|?].
  { rewrite lookup_singleton_eq. intros ?%Hfile; auto. }
  by rewrite lookup_singleton_ne.
Qed.

(** C5, as the code has it. The times that [latest_mtime] returns and
    compares are local [datetime]s, converted from the modification
    times. It returns [None] for a path that does not exist, and for a
    regular file the local time of its modification, [None] when there
    is none (a year past 9999). For a directory in which every time has
    a local [datetime] it returns the newest local time among the
    directory itself and everything reached by descending from it; one
    time without a local [datetime] makes the result [None]. So an empty
    directory yields its own time, and a directory that holds three
    files yields the latest of the local times of the three files and of
    the directory itself. *)
Theorem latest_mtime_newest (fs : MemFS.t) (p : path) (out : list string) :
  (lookup p (root fs) = None →
   latest_mtime p (World fs out) = (World fs out, Return None)) ∧
  (∀ m data, lookup p (root fs) = Some (File m data) →
   latest_mtime p (World fs out) = (World fs out, Return (localtime fs m))) ∧
  (∀ m es, lookup p (root fs) = Some (Dir m es) →
   (∀ q c, lookup q (Dir m es) = Some c →
           is_Some (localtime fs (mtime_of c))) →
   ∃ T, latest_mtime p (World fs out) = (World fs out, Return (Some T)) ∧
        (∀ q c t, lookup q (Dir m es) = Some c →
                  localtime fs (mtime_of c) = Some t → (t ≤ T)%Z) ∧
        (∃ q c, lookup q (Dir m es) = Some c ∧
                localtime fs (mtime_of c) = Some T)) ∧
  (∀ m es q c, lookup p (root fs) = Some (Dir m es) →
   lookup q (Dir m es) = Some c → localtime fs (mtime_of c) = None →
   latest_mtime p (World fs out) = (World fs out, Return None)) ∧
  (∀ m, lookup p (root fs) = Some (Dir m ∅) →
   latest_mtime p (World fs out) = (World fs out, Return (localtime fs m))) ∧
  (∀ m a b c T1 T2 T3 d1 d2 d3 tm t1 t2 t3,
     a ≠ b → a ≠ c → b ≠ c →
     lookup p (root fs)
     = Some (Dir m (<[a := File T1 d1]> (<[b := File T2 d2]>
                      {[c := File T3 d3]}))) →
     localtime fs m = Some tm → localtime fs T1 = Some t1 →
     localtime fs T2 = Some t2 → localtime fs T3 = Some t3 →
     latest_mtime p (World fs out)
     = (World fs out,
        Return (Some (Z.max tm (Z.max t1 (Z.max t2 t3)))))).
Proof.
  split; [|split; [|split; [|split; [|split]]]].
  - intros Hp. rewrite latest_mtime_unfold. simpl.
    unfold exists_b. by rewrite Hp.
  - intros m data Hp. rewrite latest_mtime_unfold. simpl.
    unfold exists_b, is_file_b, stat, fromtimestamp. rewrite Hp. simpl.
    by destruct (localtime fs m).
  - intros m es Hp Hconv. by apply latest_mtime_dir.
  - intros m es q c Hp Hc Hnone.
    by apply (latest_mtime_dir_unconvertible fs p out m es q c).
  - intros m Hp. destruct (localtime fs m) as [tm|] eqn:Htm.
    + destruct (latest_mtime_dir fs p out m ∅ Hp)
        as (T & HT & _ & q & c & Hq & HTc).
      { intros q c Hq. destruct q as [|k q].
        - injection Hq as <-. simpl. rewrite Htm. eauto.
        - simpl in Hq. by rewrite lookup_empty in Hq. }
      rewrite HT. destruct q as [|k q].
      * injection Hq as <-. simpl in HTc. congruence.
      * simpl in Hq. by rewrite lookup_empty in Hq.
    + by apply (latest_mtime_dir_unconvertible fs p out m ∅ [] (Dir m ∅)).
  - intros m a b c T1 T2 T3 d1 d2 d3 tm t1 t2 t3 Hab Hac Hbc Hp
      Htm Ht1 Ht2 Ht3.
    set (n := Dir m (<[a := File T1 d1]> (<[b := File T2 d2]>
                       {[c := File T3 d3]}))) in *.
    assert (∀ q x, lookup q n = Some x →
              x = n ∨ x = File T1 d1 ∨ x = File T2 d2 ∨ x = File T3 d3)
      as Hnodes.
    { intros q x Hq. by apply lookup_three_files in Hq. }
    destruct (latest_mtime_dir fs p out m _ Hp)
      as (T & HT & Hub & q & x & Hq & HTx).
    { intros q x Hq.
      destruct (Hnodes q x Hq) as [-> | [-> | [-> | ->]]]; simpl; eauto. }
    rewrite HT. do 3 f_equal.
    pose proof (Hub [] n tm eq_refl Htm) as Hm.
    assert (t1 ≤ T)%Z as H1.
    { apply (Hub [a] (File T1 d1)); [|done]. simpl.
      by rewrite lookup_insert_eq. }
    assert (t2 ≤ T)%Z as H2.
    { apply (Hub [b] (File T2 d2)); [|done]. simpl.
      rewrite lookup_insert_ne by done. by rewrite lookup_insert_eq. }
    assert (t3 ≤ T)%Z as H3.
    { apply (Hub [c] (File T3 d3)); [|done]. simpl.
      rewrite !lookup_insert_ne by done. by rewrite lookup_singleton_eq. }
    destruct (Hnodes q x Hq) as [-> | [-> | [-> | ->]]]; simpl in HTx;
      simplify_eq; lia.
Qed.

End MemFSFacts.

(** ** Paths and placing nodes in a tree *)

Section PlaceFacts.

Import MemFS.

Lemma path_eqb_eq p q : path_eqb p q = true ↔ p = q.
Proof.
  revert q. induction p as [|a p IH]; intros [|b q]; simpl; try done.
  rewrite andb_true_iff, String.eqb_eq, IH. split; [by intros [-> ->]|].
  by intros [= -> ->].
Qed.

Lemma path_eqb_refl p : path_eqb p p = true.
Proof. by apply path_eqb_eq. Qed.

Lemma is_prefix_true p q : is_prefix p q = true ↔ ∃ r, q = p ++ r.
Proof.
  revert q. induction p as [|a p IH]; intros q; simpl.
  { split; [eauto|done]. }
  destruct q as [|b q].
  { split; [done|]. by intros [r ?]. }
  rewrite andb_true_iff, String.eqb_eq, IH. split.
  - intros [-> [r ->]]. eauto.
  - intros [r [= -> ->]]. eauto.
Qed.

Lemma is_prefix_refl p : is_prefix p p = true.
Proof. apply is_prefix_true. exists []. by rewrite app_nil_r. Qed.

Lemma is_prefix_app p r : is_prefix p (p ++ r) = true.
Proof. apply is_prefix_true. eauto. Qed.

Lemma is_prefix_cons a p b q :
  is_prefix (a :: p) (b :: q) = String.eqb a b && is_prefix p q.
Proof. done. Qed.

Lemma is_prefix_trans p q r :
  is_prefix p q = true → is_prefix q r = true → is_prefix p r = true.
Proof.
  rewrite !is_prefix_true. intros [x ->] [y ->]. exists (x ++ y).
  by rewrite app_assoc.
Qed.

Lemma path_parent_child p c : path_parent (path_child p c) = p.
Proof. apply removelast_last. Qed.

Lemma path_parent_cons c c' p :
  path_parent (c :: c' :: p) = c :: path_parent (c' :: p).
Proof. done. Qed.

Lemma is_prefix_parent q p :
  p ≠ [] → is_prefix q (path_parent p) = true → is_prefix q p = true.
Proof.
  intros Hp [r Hr]%is_prefix_true. apply is_prefix_true.
  destruct (exists_last Hp) as (p' & c & ->).
  unfold path_parent in Hr. rewrite removelast_last in Hr. subst p'.
  exists (r ++ [c]). by rewrite app_assoc.
Qed.

(** what exists lies in a directory *)
Lemma lookup_parent p n x :
  p ≠ [] → lookup p n = Some x →
  ∃ m es, lookup (path_parent p) n = Some (Dir m es).
Proof.
  revert n. induction p as [|c p IH]; intros n Hp Hl; [done|].
  destruct n as [m data|m es]; [done|]. destruct p as [|c' p].
  { simpl. eauto. }
  rewrite path_parent_cons. simpl in *.
  destruct (es !! c) as [n'|]; [|done]. by apply IH.
Qed.

Lemma lookup_prefix p r n x :
  lookup (p ++ r) n = Some x → is_Some (lookup p n).
Proof.
  rewrite lookup_app. destruct (lookup p n); [eauto|done].
Qed.

(** what is placed at [p] is found there *)
Lemma lookup_place_here p q x n m es :
  p ≠ [] → lookup (path_parent p) n = Some (Dir m es) →
  lookup (p ++ q) (place p x n) = x ≫= lookup q.
Proof.
  revert n m es. induction p as [|c p IH]; intros n m es Hp Hl; [done|].
  destruct p as [|c' p].
  - simpl in Hl. injection Hl as ->. simpl.
    destruct x as [x|]; simpl.
    + by rewrite lookup_insert_eq.
    + by rewrite lookup_delete_eq.
  - rewrite path_parent_cons in Hl.
    destruct n as [m0 data|m0 es0]; [done|].
    cbn [lookup] in Hl. cbn [place].
    destruct (es0 !! c) as [n'|] eqn:Hc; [|done].
    rewrite <- app_comm_cons. cbn [lookup]. rewrite lookup_insert_eq.
    by eapply IH.
Qed.

(** placing at [p] leaves alone what is neither above nor below [p] *)
Lemma lookup_place_other p q x n :
  is_prefix p q = false → is_prefix q p = false →
  lookup q (place p x n) = lookup q n.
Proof.
  revert q n. induction p as [|c p IH]; intros q n Hpq Hqp; [done|].
  destruct q as [|k q]; [done|].
  rewrite is_prefix_cons in Hpq, Hqp.
  destruct n as [m data|m es]; [by destruct p|].
  destruct (String.eqb_spec c k) as [->|Hne].
  - rewrite String.eqb_refl in Hqp. simpl in Hpq, Hqp.
    destruct p as [|c' p]; [done|]. cbn [place].
    destruct (es !! k) as [n'|] eqn:Hk; [|done].
    cbn [lookup]. rewrite lookup_insert_eq, Hk. by apply IH.
  - destruct p as [|c' p]; cbn [place].
    + destruct x; cbn [lookup].
      * by rewrite lookup_insert_ne.
      * by rewrite lookup_delete_ne.
    + destruct (es !! c) as [n'|] eqn:Hc; [|done].
      cbn [lookup]. by rewrite lookup_insert_ne.
Qed.

(** a directory that is not below [p] stays a directory *)
Lemma lookup_place_dir p q x n m es :
  is_prefix p q = false → lookup q n = Some (Dir m es) →
  ∃ es', lookup q (place p x n) = Some (Dir m es').
Proof.
  revert q n. induction p as [|c p IH]; intros q n Hpq Hl; [done|].
  destruct n as [m0 data|m0 es0].
  { destruct q; [done|]. done. }
  destruct q as [|k q].
  { simpl in Hl. injection Hl as -> ->.
    destruct p as [|c' p]; cbn [place]; [by eauto|].
    destruct (es !! c); simpl; eauto. }
  rewrite is_prefix_cons in Hpq. cbn [lookup] in Hl.
  destruct (es0 !! k) as [n'|] eqn:Hk; [|done].
  destruct (String.eqb_spec c k) as [->|Hne].
  - simpl in Hpq. destruct p as [|c' p]; [done|]. cbn [place]. rewrite Hk.
    cbn [lookup]. rewrite lookup_insert_eq. by apply IH.
  - exists es. destruct p as [|c' p]; cbn [place].
    + destruct x; cbn [lookup].
      * by rewrite lookup_insert_ne, Hk.
      * by rewrite lookup_delete_ne, Hk.
    + destruct (es0 !! c); cbn [lookup]; [|by rewrite Hk].
      by rewrite lookup_insert_ne, Hk.
Qed.

End PlaceFacts.

(** ** The backup manager on the in-memory file system *)

Section BackupFacts.

Import MemFS.

Lemma fresh_dirs_lookup now p q :
  is_prefix q p = true → ∃ es, lookup q (fresh_dirs now p) = Some (Dir now es).
Proof.
  revert q. induction p as [|c p IH]; intros [|k q] Hq; simpl; eauto; [done|].
  rewrite is_prefix_cons, andb_true_iff, String.eqb_eq in Hq.
  destruct Hq as [-> Hq]. rewrite lookup_singleton_eq. by apply IH.
Qed.

Lemma fresh_dirs_lookup_none now p q :
  is_prefix q p = false → lookup q (fresh_dirs now p) = None.
Proof.
  revert q. induction p as [|c p IH]; intros [|k q] Hq; try done.
  cbn [fresh_dirs lookup]. rewrite is_prefix_cons in Hq. destruct (String.eqb_spec k c) as [->|Hne].
  - rewrite lookup_singleton_eq. by apply IH.
  - by rewrite lookup_singleton_ne.
Qed.

(** [mkdir(parents=True, exist_ok=True)] succeeds when no regular file is
    in the way; afterwards the path and all that is above it are
    directories, and nothing else has changed *)
Lemma mkdirs_spec now p n :
  (∀ q m d, is_prefix q p = true → lookup q n ≠ Some (File m d)) →
  ∃ n', mkdirs now p n = Return n' ∧
        (∀ q, is_prefix q p = true → ∃ m es, lookup q n' = Some (Dir m es)) ∧
        (∀ q, is_prefix q p = false → lookup q n' = lookup q n).
Proof.
  revert n. induction p as [|c p IH]; intros n Hfile.
  { destruct n as [m d|m es]; [by destruct (Hfile [] m d)|].
    exists (Dir m es). split; [done|]. split; [|done].
    intros [|??] Hq; [simpl; eauto|done]. }
  destruct n as [m d|m es]; [by destruct (Hfile [] m d)|].
  cbn [mkdirs]. destruct (es !! c) as [n0|] eqn:Hc.
  - destruct (IH n0) as (n0' & -> & Hdir & Hframe).
    { intros q m0 d Hq Hl. apply (Hfile (c :: q) m0 d).
      - by rewrite is_prefix_cons, String.eqb_refl.
      - simpl. by rewrite Hc. }
    eexists. split; [done|]. split.
    + intros [|k q] Hq; [simpl; eauto|].
      rewrite is_prefix_cons, andb_true_iff, String.eqb_eq in Hq.
      destruct Hq as [-> Hq]. cbn [lookup]. rewrite lookup_insert_eq. auto.
    + intros [|k q] Hq; [done|]. rewrite is_prefix_cons in Hq. cbn [lookup].
      destruct (String.eqb_spec k c) as [->|Hne].
      * rewrite lookup_insert_eq, Hc. by apply Hframe.
      * by rewrite lookup_insert_ne.
  - eexists. split; [done|]. split.
    + intros [|k q] Hq; [simpl; eauto|].
      rewrite is_prefix_cons, andb_true_iff, String.eqb_eq in Hq.
      destruct Hq as [-> Hq]. cbn [lookup]. rewrite lookup_insert_eq.
      destruct (fresh_dirs_lookup now p q Hq) as [es' ->]. eauto.
    + intros [|k q] Hq; [done|]. rewrite is_prefix_cons in Hq. cbn [lookup].
      destruct (String.eqb_spec k c) as [->|Hne].
      * rewrite lookup_insert_eq, Hc. by apply fresh_dirs_lookup_none.
      * by rewrite lookup_insert_ne.
Qed.

Lemma is_prefix_longer p c q :
  is_prefix (path_child p c) q = true → is_prefix q p = true → False.
Proof.
  rewrite !is_prefix_true. intros [r ->] [r' Hr]. unfold path_child in Hr.
  apply (f_equal (@List.length string)) in Hr. rewrite !length_app in Hr. simpl in Hr. lia.
Qed.

Lemma is_prefix_child_false p c : is_prefix (path_child p c) p = false.
Proof.
  destruct (is_prefix _ _) eqn:E; [|done].
  destruct (is_prefix_longer p c p E (is_prefix_refl p)).
Qed.

Lemma is_prefix_of_child q p c :
  is_prefix q (path_child p c) = true →
  q = path_child p c ∨ is_prefix q p = true.
Proof.
  rewrite !is_prefix_true. intros [r Hr].
  destruct r as [|x r _] using rev_ind.
  - left. by rewrite app_nil_r in Hr.
  - right. unfold path_child in Hr. rewrite app_assoc in Hr.
    apply app_inj_tail in Hr as [-> _]. eauto.
Qed.

(** a rename onto a free name in an existing directory moves the entry *)
Lemma rename_moves fs src dst s m es :
  src ≠ [] → lookup src (root fs) = Some s →
  is_prefix src dst = false →
  lookup (path_parent dst) (root fs) = Some (Dir m es) →
  lookup dst (root fs) = None →
  rename fs src dst
  = (with_root fs (place dst (Some s) (place src None (root fs))), Return tt).
Proof.
  intros Hsrc Hs Hpre Hpar Hdst. unfold rename.
  destruct src as [|c src]; [done|]. rewrite Hs.
  destruct (path_eqb (c :: src) dst) eqn:He.
  { apply path_eqb_eq in He as <-. by rewrite is_prefix_refl in Hpre. }
  rewrite Hpre, Hpar. destruct dst as [|d dst]; [done|].
  rewrite Hdst. by destruct s.
Qed.

(** [shutil.move] onto a free name in an existing directory is one rename *)
Lemma shutil_move_free fs out src dst s m es :
  src ≠ [] → lookup src (root fs) = Some s →
  is_prefix src dst = false →
  lookup (path_parent dst) (root fs) = Some (Dir m es) →
  lookup dst (root fs) = None →
  shutil_move src dst (World fs out)
  = (World (with_root fs (place dst (Some s) (place src None (root fs)))) out,
     Return tt).
Proof.
  intros Hsrc Hs Hpre Hpar Hdst.
  unfold shutil_move, bind, total, try_except, update, ret. simpl.
  unfold is_dir_b. rewrite Hdst. simpl.
  by rewrite (rename_moves fs src dst s m es).
Qed.

End BackupFacts.

(** ** [shutil.move], step by step *)

Section MoveFacts.

Context {FS : Type} `{FileSystem FS}.

Lemma shutil_move_unfold src dst (w : world FS) :
  shutil_move src dst w =
  let fs := files w in
  let out := printed w in
  let real := if os_path_isdir fs dst then path_child dst (path_name src)
              else dst in
  if os_path_isdir fs dst && path_eqb src dst then
    (World (os_rename fs src dst).1 out, (os_rename fs src dst).2)
  else if os_path_isdir fs dst && os_path_exists fs real then
    (World fs out,
     Raise (ShutilError
              ("Destination path '" +:+ show_path real +:+ "' already exists")))
  else
    match os_rename fs src real with
    | (fs1, Return _) => (World fs1 out, Return tt)
    | (fs1, Raise e) =>
        if negb (is_OSError e) then (World fs1 out, Raise e)
        else if os_path_isdir fs1 src then
          if is_prefix src dst then
            (World fs1 out,
             Raise (ShutilError
                      ("Cannot move a directory '" +:+ show_path src +:+
                       "' into itself '" +:+ show_path dst +:+ "'.")))
          else
            match copytree fs1 src real false with
            | (fs2, Raise e2) => (World fs2 out, Raise e2)
            | (fs2, Return _) =>
                (World (rmtree fs2 src).1 out, (rmtree fs2 src).2)
            end
        else
          match copy2 fs1 src real with
          | (fs2, Raise e2) => (World fs2 out, Raise e2)
          | (fs2, Return _) =>
              (World (unlink fs2 src).1 out, (unlink fs2 src).2)
          end
    end.
Proof.
  destruct w as [fs out].
  unfold shutil_move, bind, total, try_except, update, ret, raise. simpl.
  destruct (os_path_isdir fs dst) eqn:Hd; simpl;
    [destruct (path_eqb src dst); simpl;
       [by destruct (os_rename fs src dst)|];
     destruct (os_path_exists fs (path_child dst (path_name src))); simpl;
       [reflexivity|]|];
    (destruct (os_rename fs src _) as [fs1 [[]|e]]; simpl; [reflexivity|]);
    (destruct (is_OSError e); simpl; [|reflexivity]);
    (destruct (os_path_isdir fs1 src); simpl;
       [destruct (is_prefix src dst); [reflexivity|]|]).
  all: repeat (case_match; cbn [files printed] in *; simplify_eq);
    cbn [fst snd]; congruence.
Qed.
End MoveFacts.

Section RenameFacts.

Import MemFS.

#[local] Arguments lookup : simpl never.
#[local] Arguments place : simpl never.
#[local] Arguments is_prefix : simpl never.
#[local] Arguments path_eqb : simpl never.
#[local] Arguments rename : simpl never.
#[local] Arguments copy_tree : simpl never.
#[local] Arguments copy_file : simpl never.
#[local] Arguments remove_tree : simpl never.
#[local] Arguments remove_file : simpl never.
#[local] Arguments exists_b : simpl never.
#[local] Arguments is_dir_b : simpl never.

Lemma rename_same fs src s :
  src ≠ [] → lookup src (root fs) = Some s →
  rename fs src src = (fs, Return tt).
Proof.
  intros Hne Hs. unfold rename. destruct src as [|c src]; [done|].
  by rewrite Hs, path_eqb_refl.
Qed.

Lemma rename_dir_onto_file fs src dst m es ms ds mp esp :
  src ≠ [] → lookup src (root fs) = Some (Dir m es) →
  src ≠ dst → is_prefix src dst = false →
  lookup (path_parent dst) (root fs) = Some (Dir mp esp) →
  lookup dst (root fs) = Some (File ms ds) →
  rename fs src dst = (fs, Raise NotADirectoryError).
Proof.
  intros Hne Hs Hsd Hp Hpar Hd. unfold rename. destruct src as [|c src]; [done|].
  rewrite Hs. destruct (path_eqb (c :: src) dst) eqn:He.
  { by apply path_eqb_eq in He. }
  rewrite Hp, Hpar. destruct dst as [|k dst]; [simpl in Hpar; congruence|].
  by rewrite Hd.
Qed.

Lemma mkdirs_no_file now p n n' :
  mkdirs now p n = Return n' →
  ∀ q m d, is_prefix q p = true → lookup q n ≠ Some (File m d).
Proof.
  revert n n'. induction p as [|c p IH]; intros n n' Hmk q m d Hq Hl.
  { destruct q; [|done]. rewrite lookup_nil in Hl. injection Hl as ->. done. }
  destruct n as [m0 d0|m0 es]; [done|].
  destruct q as [|k q]; [done|].
  rewrite is_prefix_cons, andb_true_iff, String.eqb_eq in Hq.
  destruct Hq as [-> Hq]. rewrite lookup_cons in Hl. cbn in Hmk, Hl.
  destruct (es !! c) as [n0|]; [|done]. cbn in Hl.
  destruct (mkdirs now p n0) as [n0'|] eqn:Hmk0; [|done].
  by apply (IH n0 n0' Hmk0 q m d).
Qed.

Lemma mkdirs_return now p n n' :
  mkdirs now p n = Return n' →
  (∀ q, is_prefix q p = true → ∃ m es, lookup q n' = Some (Dir m es)) ∧
  (∀ q, is_prefix q p = false → lookup q n' = lookup q n).
Proof.
  intros Hmk.
  destruct (mkdirs_spec now p n (mkdirs_no_file now p n n' Hmk))
    as (n'' & Hmk' & Hn). rewrite Hmk in Hmk'. injection Hmk' as <-. exact Hn.
Qed.

End RenameFacts.

(** ** The sync orchestrator on the in-memory file system *)

Section SyncFacts.

Import MemFS.

Lemma resolve_section defs current_os sec w l :
  defs !! upper current_os = Some sec →
  sec !! "windows" = Some w → sec !! "linux" = Some l →
  resolve defs current_os "windows→linux" = Return (Path w, Path l) ∧
  ∀ direction, direction ≠ "windows→linux" →
    resolve defs current_os direction = Return (Path l, Path w).
Proof.
  intros Hsec Hw Hl. unfold resolve, subscript. split.
  - rewrite String.eqb_refl, Hsec, Hw, Hl. done.
  - intros direction Hd. apply String.eqb_neq in Hd. rewrite Hd.
    by rewrite Hsec, Hl, Hw.
Qed.

(** a tree copied to a place where nothing is arrives whole *)
Lemma copy_node_fresh ok name s : copy_node ok name s None = (Some s, None).
Proof.
  revert name. induction s as [m data|m es IH] using node_tree_ind; intros name.
  { done. }
  cbn [copy_node]. rewrite andb_false_r. cbn [from_option].
  rewrite map_fold_foldr.
  assert (∀ l : list (string * node),
            (∀ k c, (k, c) ∈ l → es !! k = Some c) →
            foldr (uncurry (λ k c '(acc, failed),
                     match copy_node ok k c ((∅ : gmap string node) !! k) with
                     | (Some c', e) => (<[k := c']> acc, failed || is_some e)
                     | (None, e) => (acc, failed || is_some e)
                     end)) (∅, false) l
            = ((list_to_map l : gmap string node), false)) as Hl.
  { induction l as [|[k c] l IHl]; intros Hin; [done|].
    cbn [foldr uncurry]. rewrite IHl.
    - rewrite lookup_empty, (IH k c).
      + done.
      + apply Hin. by left.
    - intros k' c' ?. apply Hin. by right. }
  rewrite Hl.
  - by rewrite list_to_map_to_list.
  - intros k c. by rewrite elem_of_map_to_list.
Qed.

Lemma mkdirs_existing now p n m es :
  lookup p n = Some (Dir m es) → mkdirs now p n = Return n.
Proof.
  revert n. induction p as [|c p IH]; intros n Hl.
  { rewrite lookup_nil in Hl. by injection Hl as ->. }
  rewrite lookup_cons in Hl. destruct n as [m0 d0|m0 es0]; [done|].
  cbn in Hl. cbn [mkdirs].
  destruct (es0 !! c) as [n0|] eqn:Hc; [|done]. cbn in Hl.
  rewrite (IH n0 Hl). by rewrite insert_id.
Qed.

(** [shutil.copytree] to a free name in an existing directory puts a
    copy of the whole source tree there *)
Lemma copy_tree_fresh fs src dst ok m es mp esp :
  lookup src (root fs) = Some (Dir m es) →
  lookup dst (root fs) = None →
  lookup (path_parent dst) (root fs) = Some (Dir mp esp) →
  copy_tree fs src dst ok
  = (with_root fs (place dst (Some (Dir m es)) (root fs)), Return tt).
Proof.
  intros Hs Hd Hp. unfold copy_tree. rewrite Hs, Hd.
  rewrite andb_false_r. rewrite (mkdirs_existing _ _ _ mp esp Hp).
  by rewrite copy_node_fresh.
Qed.

(** C7. [perform] takes source and target from the one section named by
    the uppercased OS role: with direction [windows→linux] the [windows]
    path is the source and the [linux] path the target, with any other
    direction the two are swapped. In the scenario of the specification
    ([/a] holds the one file [save.dat], [/b] does not exist) the sync
    succeeds, [/b/save.dat] then holds the bytes of [/a/save.dat], and
    nothing else is added to the file system: no backup is made. *)
Theorem perform_resolves_and_copies :
  (∀ (defs : gmap string (gmap string string)) current_os sec w l,
     defs !! upper current_os = Some sec →
     sec !! "windows" = Some w → sec !! "linux" = Some l →
     resolve defs current_os "windows→linux" = Return (Path w, Path l) ∧
     ∀ direction, direction ≠ "windows→linux" →
       resolve defs current_os direction = Return (Path l, Path w)) ∧
  (∀ (TRASH_DIR : path) now (defs : gmap string (gmap string string)) sec
     game (fs : MemFS.t) rm es dm mt data out,
     defs !! "WINDOWS" = Some sec →
     sec !! "windows" = Some "/a" → sec !! "linux" = Some "/b" →
     root fs = Dir rm es →
     es !! "a" = Some (Dir dm {[ "save.dat" := File mt data ]}) →
     es !! "b" = None →
     ∃ fs',
       perform TRASH_DIR now defs "windows" "windows→linux" game (World fs out)
       = (World fs'
            (out ++ summary "windows→linux" game ["a"] ["b"] ++
             ["✅  Sync complete."]),
          Return tt) ∧
       root fs'
       = Dir rm (<["b" := Dir dm {[ "save.dat" := File mt data ]}]> es) ∧
       lookup ["b"; "save.dat"] (root fs') = Some (File mt data) ∧
       lookup ["a"; "save.dat"] (root fs') = Some (File mt data)).
Proof.
  split; [apply resolve_section|].
  intros TRASH_DIR now defs sec game fs rm es dm mt data out
    Hsec Hw Hl Hroot Ha Hb.
  assert (resolve defs "windows" "windows→linux" = Return (["a"], ["b"])) as Hr.
  { by apply (resolve_section defs "windows" sec "/a" "/b"). }
  assert (lookup ["a"] (root fs)
          = Some (Dir dm {[ "save.dat" := File mt data ]})) as Hla.
  { rewrite Hroot. cbn. by rewrite Ha. }
  assert (lookup ["b"] (root fs) = None) as Hlb.
  { rewrite Hroot. cbn. by rewrite Hb. }
  exists (with_root fs
            (Dir rm (<["b" := Dir dm {[ "save.dat" := File mt data ]}]> es))).
  split; [|split; [done|split]].
  - rewrite (perform_unfold TRASH_DIR now defs _ _ game ["a"] ["b"] _ Hr).
    cbn [files printed].
    change (@path_exists MemFS.t _ fs ["a"]) with (Return (exists_b fs ["a"])).
    unfold exists_b at 1. rewrite Hla. cbn [is_some].
    unfold backup, bind at 1, query. cbn [files printed].
    change (@path_exists MemFS.t _ fs ["b"]) with (Return (exists_b fs ["b"])).
    unfold exists_b at 1. rewrite Hlb. cbn [is_some negb].
    unfold ret, copy, bind, query, update. cbn [files printed].
    change (@path_is_dir MemFS.t _ fs ["a"]) with (Return (is_dir_b fs ["a"])).
    unfold is_dir_b. rewrite Hla. cbn [from_option is_dir_node files printed].
    change (@copytree MemFS.t _) with copy_tree.
    rewrite (copy_tree_fresh fs ["a"] ["b"] true dm _ rm es Hla Hlb);
      [|by rewrite Hroot].
    rewrite Hroot. cbn. by rewrite <- app_assoc.
  - cbn. by rewrite lookup_insert_eq, lookup_singleton_eq.
  - cbn. rewrite lookup_insert_ne by done. rewrite Ha.
    by rewrite lookup_singleton_eq.
Qed.

End SyncFacts.
(** ** The backup manager, with the refusals of the operating system *)

Section TrashFacts.

Import MemFS.

#[local] Arguments lookup : simpl never.
#[local] Arguments place : simpl never.
#[local] Arguments is_prefix : simpl never.
#[local] Arguments path_eqb : simpl never.
#[local] Arguments rename : simpl never.
#[local] Arguments copy_tree : simpl never.
#[local] Arguments copy_file : simpl never.
#[local] Arguments remove_tree : simpl never.
#[local] Arguments remove_file : simpl never.
#[local] Arguments exists_b : simpl never.
#[local] Arguments is_dir_b : simpl never.

Ltac faulty_fields :=
  cbn [FaultyFS.rename_refused FaultyFS.base FaultyFS.with_base
       FaultyFS.undeletable FaultyFS.stat_denied FaultyFS.vanished] in *.

(** [shutil.move] of the target into its place in the trash, when the
    rename is not refused: every case *)
Lemma shutil_move_trash (fs : FaultyFS.t) out src s dest m es :
  FaultyFS.rename_refused fs = None →
  lookup src (root (FaultyFS.base fs)) = Some s →
  is_prefix src dest = false →
  lookup dest (root (FaultyFS.base fs)) = Some (Dir m es) →
  let slot := path_child dest (path_name src) in
  let inside := path_child slot (path_name src) in
  let moved src dst s :=
    FaultyFS.with_base fs
      (with_root (FaultyFS.base fs)
         (place dst (Some s) (place src None (root (FaultyFS.base fs))))) in
  shutil_move src slot (World fs out) =
  match lookup slot (root (FaultyFS.base fs)) with
  | None => (World (moved src slot s) out, Return tt)
  | Some (File _ _) =>
      if decide (src = slot) then (World fs out, Return tt)
      else if is_dir_node s then (World fs out, Raise FileExistsError)
      else (World (moved src slot s) out, Return tt)
  | Some (Dir _ _) =>
      if decide (src = slot) then (World fs out, Return tt)
      else if exists_b (FaultyFS.base fs) inside
      then (World fs out,
            Raise (ShutilError ("Destination path '" +:+ show_path inside +:+
                                "' already exists")))
      else (World (moved src inside s) out, Return tt)
  end.
Proof.
  intros Hrr Hs Hpre Hdest slot inside moved. unfold moved. clear moved.
  destruct fs as [b rr ud sd vn]. cbn [FaultyFS.rename_refused FaultyFS.base] in *.
  subst rr.
  assert (path_parent slot = dest) as Hpar by apply path_parent_child.
  assert (src ≠ []) as Hsrc0 by (by intros ->).
  assert (is_prefix src slot = true → src = slot) as Hps.
  { intros [E|E]%is_prefix_of_child; [done|congruence]. }
  rewrite shutil_move_unfold. cbn [files printed].
  cbn [os_path_isdir os_path_exists os_rename copytree copy2 rmtree unlink
       FaultyFS_FileSystem FaultyFS.base].
  unfold FaultyFS.rename, FaultyFS.lift.
  faulty_fields.
  fold slot. fold inside.
  assert (is_dir_b b src = is_dir_node s) as Hsd.
  { unfold is_dir_b. by rewrite Hs. }
  destruct (lookup slot (root b)) as [[ms ds|ms ess]|] eqn:Hslot.
  - (* a regular file holds the name *)
    assert (is_dir_b b slot = false) as ->.
    { unfold is_dir_b. by rewrite Hslot. }
    cbn [andb].
    destruct (decide (src = slot)) as [Heq|Hneq].
    { rewrite <- Heq. by rewrite (rename_same b src s). }
    assert (is_prefix src slot = false) as Hp.
    { destruct (is_prefix src slot); [by destruct Hneq; apply Hps|done]. }
    destruct s as [m1 d1|m1 es1]; cbn [is_dir_node].
    + unfold rename. destruct src as [|c src]; [done|]. rewrite Hs.
      destruct (path_eqb (c :: src) slot) eqn:He.
      { by apply path_eqb_eq in He. }
      rewrite Hp, Hpar, Hdest.
      destruct slot as [|k sl] eqn:Hsl; [by destruct dest|].
      rewrite Hslot. reflexivity.
    + rewrite (rename_dir_onto_file b src slot m1 es1 ms ds m es); try done;
        [|by rewrite Hpar].
      cbn [is_OSError negb]. faulty_fields. rewrite Hsd, Hp. cbn [is_dir_node].
      unfold copy_tree. rewrite Hs, Hslot. reflexivity.
  - (* a directory holds the name *)
    assert (is_dir_b b slot = true) as ->.
    { unfold is_dir_b. by rewrite Hslot. }
    cbn [andb].
    destruct (decide (src = slot)) as [Heq|Hneq].
    { rewrite <- Heq, path_eqb_refl. by rewrite (rename_same b src s). }
    destruct (path_eqb src slot) eqn:He; [by apply path_eqb_eq in He|].
    destruct (exists_b b inside) eqn:Hex; [reflexivity|].
    unfold exists_b in Hex.
    destruct (lookup inside (root b)) eqn:Hreal; [done|].
    rewrite (rename_moves b src _ s ms ess); try done.
    + destruct (is_prefix src inside) eqn:E; [|done].
      apply is_prefix_of_child in E as [E|E].
      * fold inside in E. rewrite E in Hs. congruence.
      * by apply Hps in E.
    + unfold inside. by rewrite path_parent_child.
  - (* the name is free *)
    assert (is_dir_b b slot = false) as ->.
    { unfold is_dir_b. by rewrite Hslot. }
    cbn [andb].
    assert (is_prefix src slot = false) as Hp.
    { destruct (is_prefix src slot); [|done].
      rewrite <- (Hps eq_refl) in Hslot. congruence. }
    rewrite (rename_moves b src slot s m es); try done. by rewrite Hpar.
Qed.

Lemma path_mem_true p ps : path_mem p ps = true ↔ p ∈ ps.
Proof.
  unfold path_mem. rewrite existsb_exists. split.
  - intros (q & Hq & <-%path_eqb_eq). by apply list_elem_of_In.
  - intros Hp. exists p. split; [by apply list_elem_of_In|apply path_eqb_refl].
Qed.

(** [shutil.rmtree] removes the whole tree when nothing in it is
    undeletable *)
Lemma remove_node_free locked p n :
  (∀ q, q ∈ locked → is_prefix p q = false) →
  FaultyFS.remove_node locked p n = (None, None).
Proof.
  revert p. induction n as [m data|m es IH] using node_tree_ind;
    intros p Hfree.
  all: assert (path_mem p locked = false) as Hp
    by (destruct (path_mem p locked) eqn:E; [|done];
        apply path_mem_true, Hfree in E; by rewrite is_prefix_refl in E).
  { cbn [FaultyFS.remove_node]. by rewrite Hp. }
  cbn [FaultyFS.remove_node]. rewrite map_fold_foldr.
  assert (∀ (l : list (string * node)) (acc0 : gmap string node),
            (∀ k c, (k, c) ∈ l → es !! k = Some c) →
            ∃ acc : gmap string node,
              foldr (uncurry (λ k c '(acc, e),
                       match e with
                       | Some _ => (acc, e)
                       | None =>
                           match FaultyFS.remove_node locked (path_child p k) c with
                           | (Some c', e') => (<[k := c']> acc, e')
                           | (None, e') => (delete k acc, e')
                           end
                       end)) (acc0, None) l
              = (acc, None)) as Hl.
  { induction l as [|[k c] l IHl]; intros acc0 Hin; [by eauto|].
    cbn [foldr uncurry]. destruct (IHl acc0) as [acc ->].
    { intros k' c' ?. apply Hin. by right. }
    rewrite (IH k c).
    - eauto.
    - apply Hin. by left.
    - intros q Hq. destruct (is_prefix (path_child p k) q) eqn:E; [|done].
      rewrite <- (Hfree q Hq). symmetry.
      eapply is_prefix_trans; [|exact E]. apply is_prefix_app. }
  destruct (Hl (map_to_list es) es) as [acc ->].
  { intros k c. by rewrite elem_of_map_to_list. }
  by rewrite Hp.
Qed.

(** an interrupted removal leaves something behind *)
Lemma remove_node_failed locked p n r e :
  FaultyFS.remove_node locked p n = (r, Some e) → ∃ rest, r = Some rest.
Proof.
  destruct n as [m data|m es]; cbn [FaultyFS.remove_node].
  - destruct (path_mem p locked); intros ?; simplify_eq; eauto.
  - destruct (map_fold _ _ _) as [es' [e'|]].
    + intros ?; simplify_eq; eauto.
    + destruct (path_mem p locked); intros ?; simplify_eq; eauto.
Qed.

(** [shutil.move] of the target to a free place in the trash, when the
    rename is refused with an [OSError]: the entry is copied, and the
    original is then removed as far as it can be *)
Lemma shutil_move_refused (fs : FaultyFS.t) out src s dest m es e0 :
  FaultyFS.rename_refused fs = Some e0 → is_OSError e0 = true →
  lookup src (root (FaultyFS.base fs)) = Some s →
  is_prefix src dest = false →
  lookup dest (root (FaultyFS.base fs)) = Some (Dir m es) →
  let slot := path_child dest (path_name src) in
  lookup slot (root (FaultyFS.base fs)) = None →
  let copied := place slot (Some s) (root (FaultyFS.base fs)) in
  let after tree :=
    FaultyFS.with_base fs (with_root (FaultyFS.base fs) tree) in
  lookup src copied = Some s ∧
  shutil_move src slot (World fs out) =
  match s with
  | Dir _ _ =>
      let '(rest, e) := FaultyFS.remove_node (FaultyFS.undeletable fs) src s in
      (World (after (place src rest copied)) out,
       match e with Some e => Raise e | None => Return tt end)
  | File _ _ =>
      if path_mem src (FaultyFS.undeletable fs)
      then (World (after copied) out, Raise PermissionError)
      else (World (after (place src None copied)) out, Return tt)
  end.
Proof.
  intros Hrr He0 Hs Hpre Hdest slot Hslot copied after.
  destruct fs as [b rr ud sd vn]. faulty_fields. subst rr.
  assert (path_parent slot = dest) as Hpar by apply path_parent_child.
  assert (src ≠ []) as Hsrc0 by (by intros ->).
  assert (is_prefix src slot = false) as Hp.
  { destruct (is_prefix src slot) eqn:E; [|done].
    apply is_prefix_of_child in E as [E|E]; [|congruence].
    fold slot in E. rewrite E in Hs. congruence. }
  assert (is_prefix slot src = false) as Hp'.
  { destruct (is_prefix slot src) eqn:E; [|done].
    apply is_prefix_true in E as [r Hr]. rewrite Hr in Hs.
    destruct (lookup_prefix slot r (root b) s Hs) as [x Hx]. congruence. }
  assert (lookup src copied = Some s) as Hsc.
  { unfold copied. by rewrite lookup_place_other. }
  split; [done|].
  rewrite shutil_move_unfold. cbn [files printed].
  cbn [os_path_isdir os_path_exists os_rename copytree copy2 rmtree unlink
       FaultyFS_FileSystem FaultyFS.base].
  unfold FaultyFS.rename, FaultyFS.lift. faulty_fields.
  assert (is_dir_b b slot = false) as ->.
  { unfold is_dir_b. by rewrite Hslot. }
  cbn [andb]. rewrite He0. cbn [negb].
  assert (is_dir_b b src = is_dir_node s) as ->.
  { unfold is_dir_b. by rewrite Hs. }
  destruct s as [ms ds|ms ess]; cbn [is_dir_node].
  - (* a regular file: copy2, then unlink *)
    unfold copy_file. rewrite Hs.
    assert (is_dir_b b slot = false) as ->.
    { unfold is_dir_b. by rewrite Hslot. }
    destruct (path_eqb src slot) eqn:He.
    { apply path_eqb_eq in He. rewrite He in Hs. congruence. }
    rewrite Hpar, Hdest, Hslot. faulty_fields.
    unfold FaultyFS.remove_file, FaultyFS.lift. faulty_fields.
    destruct (path_mem src ud).
    + reflexivity.
    + unfold remove_file. cbn [root with_root]. fold copied. rewrite Hsc.
      reflexivity.
  - (* a directory: copytree, then rmtree *)
    rewrite Hp.
    rewrite (copy_tree_fresh b src slot false ms ess m es Hs Hslot);
      [|by rewrite Hpar].
    faulty_fields. unfold FaultyFS.remove_tree. faulty_fields.
    cbn [root with_root]. fold copied.
    destruct src as [|c src'] eqn:Hsrc; [done|]. rewrite <- Hsrc in *.
    rewrite Hsc.
    destruct (FaultyFS.remove_node ud src (Dir ms ess)) as [rest e].
    reflexivity.
Qed.

(** [shutil.move] into a directory that already holds the name *)
Lemma shutil_move_taken (fs : FaultyFS.t) out src slot ms es x :
  lookup slot (root (FaultyFS.base fs)) = Some (Dir ms es) → src ≠ slot →
  lookup (path_child slot (path_name src)) (root (FaultyFS.base fs)) = Some x →
  shutil_move src slot (World fs out)
  = (World fs out,
     Raise (ShutilError ("Destination path '" +:+
                         show_path (path_child slot (path_name src)) +:+
                         "' already exists"))).
Proof.
  intros Hslot Hne Hin. rewrite shutil_move_unfold. cbn [files printed].
  cbn [os_path_isdir os_path_exists FaultyFS_FileSystem].
  assert (is_dir_b (FaultyFS.base fs) slot = true) as ->.
  { unfold is_dir_b. by rewrite Hslot. }
  destruct (path_eqb src slot) eqn:He; [by apply path_eqb_eq in He|].
  cbn [andb]. unfold exists_b. by rewrite Hin.
Qed.

Lemma backup_unfold (TRASH_DIR : path) now (fs : FaultyFS.t) target game out n :
  lookup target (root (FaultyFS.base fs)) = Some n →
  let dest := path_child (path_child TRASH_DIR (stamp_of now)) game in
  backup TRASH_DIR now target game (World fs out) =
  match mkdirs (clock (FaultyFS.base fs)) dest (root (FaultyFS.base fs)) with
  | Raise e => (World fs out, Raise e)
  | Return n1 =>
      match shutil_move target (path_child dest (path_name target))
              (World (FaultyFS.with_base fs (with_root (FaultyFS.base fs) n1))
                 out) with
      | (w1, Raise e) => (w1, Raise e)
      | (w1, Return _) =>
          (World (files w1)
             (printed w1 ++ ["🔄 Previous data moved to " +:+ show_path dest]),
           Return tt)
      end
  end.
Proof.
  intros Hl dest. unfold backup, bind at 1, query. cbn [files printed].
  cbn [path_exists FaultyFS_FileSystem]. unfold exists_b. rewrite Hl.
  cbn [is_some negb]. unfold bind at 1, update. cbn [files printed].
  cbn [mkdir_parents FaultyFS_FileSystem]. unfold FaultyFS.lift, mkdir.
  fold dest.
  destruct (mkdirs _ dest _) as [n1|e1].
  - unfold bind, print.
    by destruct (shutil_move _ _ _) as [w1 [[]|e1]].
  - destruct fs. reflexivity.
Qed.

(** the two ways in which an entry goes from [src] to a free name
    [dst] in an existing directory: by a rename, and by a copy followed
    by the removal of the original *)
Lemma place_relocates (t1 : node) src dst n mp esp :
  lookup src t1 = Some n → lookup dst t1 = None →
  is_prefix src dst = false →
  lookup (path_parent dst) t1 = Some (Dir mp esp) →
  ∀ t2, (t2 = place dst (Some n) (place src None t1) ∨
         t2 = place src None (place dst (Some n) t1)) →
  lookup dst t2 = Some n ∧ lookup src t2 = None ∧
  ∀ q, is_prefix src q = false → is_prefix q src = false →
       is_prefix dst q = false → is_prefix q dst = false →
       lookup q t2 = lookup q t1.
Proof.
  intros Hs Hd Hpre Hpar t2 Ht2.
  assert (src ≠ []) as Hsrc0.
  { intros ->. rewrite (proj2 (is_prefix_true [] dst)) in Hpre; [done|].
    by exists dst. }
  assert (dst ≠ []) as Hdst0 by (by intros ->).
  assert (is_prefix dst src = false) as Hpre'.
  { destruct (is_prefix dst src) eqn:E; [|done].
    apply is_prefix_true in E as [r Hr]. rewrite Hr in Hs.
    destruct (lookup_prefix dst r t1 n Hs) as [x Hx]. congruence. }
  assert (is_prefix src (path_parent dst) = false) as Hsp.
  { destruct (is_prefix src (path_parent dst)) eqn:E; [|done].
    by rewrite (is_prefix_parent _ _ Hdst0 E) in Hpre. }
  destruct (lookup_parent src t1 n Hsrc0 Hs) as (ms & ess & Hspar).
  destruct Ht2 as [-> | ->].
  - destruct (lookup_place_dir src (path_parent dst) None t1 mp esp Hsp Hpar)
      as [esp' Hpar'].
    split; [|split].
    + rewrite <- (app_nil_r dst) at 1.
      by rewrite (lookup_place_here dst [] (Some n) _ mp esp').
    + rewrite lookup_place_other by done.
      rewrite <- (app_nil_r src) at 1.
      by rewrite (lookup_place_here src [] None _ ms ess).
    + intros q ????. by rewrite !lookup_place_other.
  - assert (is_prefix dst (path_parent src) = false) as Hdp.
    { destruct (is_prefix dst (path_parent src)) eqn:E; [|done].
      by rewrite (is_prefix_parent _ _ Hsrc0 E) in Hpre'. }
    destruct (lookup_place_dir dst (path_parent src) (Some n) t1 ms ess Hdp Hspar)
      as [ess' Hspar'].
    split; [|split].
    + rewrite lookup_place_other by done.
      rewrite <- (app_nil_r dst) at 1.
      by rewrite (lookup_place_here dst [] (Some n) _ mp esp).
    + rewrite <- (app_nil_r src) at 1.
      by rewrite (lookup_place_here src [] None _ ms ess').
    + intros q ????. by rewrite !lookup_place_other.
Qed.

Lemma with_base_eta (fs : FaultyFS.t) :
  FaultyFS.with_base fs (with_root (FaultyFS.base fs) (root (FaultyFS.base fs)))
  = fs.
Proof. by destruct fs as [[???] ????]. Qed.

(** C3, as the code has it. [backup] is a no-op when the target does not
    exist. When the target exists and the trash does not lie inside it:
    if nothing exists yet at [TRASH_DIR/stamp/game/name], where [name] is
    the final component of the target, and no regular file is in the way
    of the trash directories, these are created and the entry goes to
    that place: by one rename when the rename is not refused, and by a
    copy followed by the removal of the original when the rename is
    refused with an [OSError] and nothing of the target is undeletable.
    If that place is already a directory, the entry goes to [name]
    inside it, and [backup] raises [shutil.Error], changing nothing, when
    that name is taken too. *)
Theorem backup_moves_target (TRASH_DIR : path) (now : datetime)
    (fs : FaultyFS.t) (target : path) (game : string) (out : list string) :
  let dest := path_child (path_child TRASH_DIR (stamp_of now)) game in
  let slot := path_child dest (path_name target) in
  let inside := path_child slot (path_name target) in
  let tree := root (FaultyFS.base fs) in
  let told := out ++ ["🔄 Previous data moved to " +:+ show_path dest] in
  (lookup target tree = None →
   backup TRASH_DIR now target game (World fs out) = (World fs out, Return tt)) ∧
  (∀ n, lookup target tree = Some n → is_prefix target dest = false →
     (lookup slot tree = None →
      (∀ q m d, is_prefix q dest = true → lookup q tree ≠ Some (File m d)) →
      FaultyFS.rename_refused fs = None ∨
      (∃ e0, FaultyFS.rename_refused fs = Some e0 ∧ is_OSError e0 = true ∧
             ∀ q, q ∈ FaultyFS.undeletable fs → is_prefix target q = false) →
      ∃ fs',
        backup TRASH_DIR now target game (World fs out)
        = (World fs' told, Return tt) ∧
        relocated fs fs' target slot n ∧
        (∀ q, is_prefix q dest = true →
              is_dir_b (FaultyFS.base fs') q = true)) ∧
     (∀ ms es, lookup slot tree = Some (Dir ms es) → target ≠ slot →
        lookup inside tree = None →
        FaultyFS.rename_refused fs = None →
        ∃ fs',
          backup TRASH_DIR now target game (World fs out)
          = (World fs' told, Return tt) ∧
          relocated fs fs' target inside n) ∧
     (∀ ms es x, lookup slot tree = Some (Dir ms es) → target ≠ slot →
        lookup inside tree = Some x →
        backup TRASH_DIR now target game (World fs out)
        = (World fs out,
           Raise (ShutilError ("Destination path '" +:+ show_path inside +:+
                               "' already exists"))))).
Proof.
  intros dest slot inside tree told. split.
  { intros Hl. unfold backup, bind, query, ret. cbn [files printed].
    cbn [path_exists FaultyFS_FileSystem]. unfold exists_b.
    fold tree. by rewrite Hl. }
  intros n Hl Hpre.
  assert (is_prefix slot dest = false) as Hsd by apply is_prefix_child_false.
  assert (target ≠ slot → is_prefix target slot = false) as Hts.
  { intros Hne. destruct (is_prefix target slot) eqn:E; [|done].
    apply is_prefix_of_child in E as [E|E]; [done|congruence]. }
  assert (∀ ms es, lookup slot tree = Some (Dir ms es) →
            mkdirs (clock (FaultyFS.base fs)) dest tree = Return tree) as Hmk_ex.
  { intros ms es Hslot.
    destruct (lookup_parent slot tree _ ltac:(by destruct dest) Hslot)
      as (md & esd & Hd).
    unfold slot in Hd. rewrite path_parent_child in Hd.
    by apply (mkdirs_existing _ _ _ md esd). }
  split; [|split].
  - (* the place is free *)
    intros Hslot Hfile Hrr.
    destruct (mkdirs_spec (clock (FaultyFS.base fs)) dest tree Hfile)
      as (n1 & Hmk & Hdirs & Hframe).
    set (fs1 := FaultyFS.with_base fs (with_root (FaultyFS.base fs) n1)).
    assert (lookup target n1 = Some n) as Hl1 by (by rewrite Hframe).
    assert (lookup slot n1 = None) as Hslot1 by (by rewrite Hframe).
    destruct (Hdirs dest (is_prefix_refl dest)) as (m & es & Hdest).
    assert (target ≠ slot) as Hne by congruence.
    assert (∃ t2,
              backup TRASH_DIR now target game (World fs out)
              = (World
                   (FaultyFS.with_base fs (with_root (FaultyFS.base fs) t2))
                   told, Return tt) ∧
              (t2 = place slot (Some n) (place target None n1) ∨
               t2 = place target None (place slot (Some n) n1)))
      as (t2 & Hrun & Ht2).
    { rewrite (backup_unfold TRASH_DIR now fs target game out n Hl).
      fold dest tree. rewrite Hmk. fold fs1.
      destruct Hrr as [Hrr|(e0 & Hrr & He0 & Hfree)].
      - exists (place slot (Some n) (place target None n1)).
        split; [|by left].
        rewrite (shutil_move_trash fs1 out target n dest m es); try done.
        fold slot. cbn [FaultyFS.base fs1 FaultyFS.with_base root with_root].
        rewrite Hslot1. destruct fs; reflexivity.
      - exists (place target None (place slot (Some n) n1)).
        split; [|by right].
        destruct (shutil_move_refused fs1 out target n dest m es e0)
          as [_ ->]; try done.
        fold slot. cbn [FaultyFS.base fs1 FaultyFS.with_base root with_root
                        FaultyFS.undeletable].
        destruct n as [mf df|md esd].
        + assert (path_mem target (FaultyFS.undeletable fs) = false) as ->.
          { destruct (path_mem target _) eqn:E; [|done].
            apply path_mem_true, Hfree in E. by rewrite is_prefix_refl in E. }
          destruct fs; reflexivity.
        + rewrite (remove_node_free _ _ _ Hfree). destruct fs; reflexivity. }
    eexists. split; [exact Hrun|].
    cbn [FaultyFS.base FaultyFS.with_base root with_root].
    destruct (place_relocates n1 target slot n m es Hl1 Hslot1 (Hts Hne))
      with (t2 := t2) as (Hat & Hgone & Hrest); [|done|].
    { unfold slot. by rewrite path_parent_child. }
    split; [split; [|split]|].
    + unfold relocated. by destruct fs.
    + by destruct fs.
    + intros q ????. destruct fs as [[r c l] ????]. cbn in *.
      rewrite Hrest by done. apply Hframe.
      destruct (is_prefix q dest) eqn:E; [|done].
      assert (is_prefix q slot = true); [|congruence].
      eapply is_prefix_trans; [done|]. apply is_prefix_app.
    + intros q Hq. unfold is_dir_b.
      destruct fs as [[r c l] ????]. cbn [FaultyFS.base FaultyFS.with_base
        root with_root].
      destruct (Hdirs q Hq) as (mq & esq & Hlq).
      assert (is_prefix target q = false) as Htq.
      { destruct (is_prefix target q) eqn:E; [|done].
        by rewrite (is_prefix_trans _ _ _ E Hq) in Hpre. }
      assert (is_prefix slot q = false) as Hsq.
      { destruct (is_prefix slot q) eqn:E; [|done].
        destruct (is_prefix_longer _ _ _ E Hq). }
      destruct Ht2 as [-> | ->].
      * destruct (lookup_place_dir target q None n1 mq esq Htq Hlq) as [e1 H1].
        destruct (lookup_place_dir slot q (Some n) _ mq e1 Hsq H1) as [e2 ->].
        done.
      * destruct (lookup_place_dir slot q (Some n) n1 mq esq Hsq Hlq) as [e1 H1].
        destruct (lookup_place_dir target q None _ mq e1 Htq H1) as [e2 ->].
        done.
  - (* the place is a directory, the name inside it is free *)
    intros ms es Hslot Hne Hin Hrr.
    destruct (lookup_parent slot tree _ ltac:(by destruct dest) Hslot)
      as (md & esd & Hd).
    unfold slot in Hd. rewrite path_parent_child in Hd. fold slot in Hd.
    exists (FaultyFS.with_base fs
              (with_root (FaultyFS.base fs)
                 (place inside (Some n) (place target None tree)))).
    split.
    + rewrite (backup_unfold TRASH_DIR now fs target game out n Hl).
      fold dest tree. rewrite (Hmk_ex ms es Hslot).
      unfold tree. rewrite with_base_eta.
      rewrite (shutil_move_trash fs out target n dest md esd); try done.
      fold slot inside tree. rewrite Hslot.
      destruct (decide (target = slot)); [done|].
      unfold exists_b. fold tree. rewrite Hin. reflexivity.
    + assert (is_prefix target inside = false) as Hti.
      { destruct (is_prefix target inside) eqn:E; [|done].
        apply is_prefix_of_child in E as [E|E].
        - fold inside in E. rewrite E in Hl. congruence.
        - by rewrite (Hts Hne) in E. }
      destruct (place_relocates tree target inside n ms es Hl Hin Hti)
        with (t2 := place inside (Some n) (place target None tree))
        as (Hat & Hgone & Hrest); [|by left|].
      { unfold inside. by rewrite path_parent_child. }
      unfold relocated. by destruct fs.
  - (* the place is a directory, and the name inside it is taken *)
    intros ms es x Hslot Hne Hin.
    rewrite (backup_unfold TRASH_DIR now fs target game out n Hl).
    fold dest tree. rewrite (Hmk_ex ms es Hslot).
    unfold tree. rewrite with_base_eta.
    by rewrite (shutil_move_taken fs out target
                  (path_child dest (path_name target)) ms es x).
Qed.

(** C9, as the code has it. A [backup] that fails has printed nothing.
    When the rename is not refused, it has at most created trash
    directories, and the target entry is untouched at its place. When
    the rename of a target directory to its free place in the trash is
    refused with an [OSError], the directory was copied and it was its
    removal that failed: the trash holds the whole entry, and the target
    holds what the interrupted removal has left of it. All this provided
    that the trash does not lie inside the target. *)
Theorem backup_failure_leaves_target (TRASH_DIR : path) (now : datetime)
    (fs : FaultyFS.t) (target : path) (game : string) (out : list string)
    (w' : world FaultyFS.t) (e : exn) :
  let dest := path_child (path_child TRASH_DIR (stamp_of now)) game in
  let slot := path_child dest (path_name target) in
  let tree := root (FaultyFS.base fs) in
  let tree' := root (FaultyFS.base (files w')) in
  is_prefix target dest = false →
  backup TRASH_DIR now target game (World fs out) = (w', Raise e) →
  printed w' = out ∧
  (FaultyFS.rename_refused fs = None →
   (files w' = fs ∨ mkdir_parents fs dest = (files w', Return tt)) ∧
   lookup target tree' = lookup target tree) ∧
  (∀ e0 m es,
     FaultyFS.rename_refused fs = Some e0 → is_OSError e0 = true →
     lookup target tree = Some (Dir m es) → lookup slot tree = None →
     (∀ q mf d, is_prefix q dest = true → lookup q tree ≠ Some (File mf d)) →
     ∃ rest,
       FaultyFS.remove_node (FaultyFS.undeletable fs) target (Dir m es)
       = (Some rest, Some e) ∧
       lookup slot tree' = Some (Dir m es) ∧
       lookup target tree' = Some rest).
Proof.
  intros dest slot tree tree' Hpre Hrun. subst tree'.
  destruct (lookup target tree) as [n|] eqn:Hl.
  2:{ revert Hrun. unfold backup, bind, query, ret. cbn [files printed].
      cbn [path_exists FaultyFS_FileSystem]. unfold exists_b.
      fold tree. by rewrite Hl. }
  rewrite (backup_unfold TRASH_DIR now fs target game out n Hl) in Hrun.
  fold dest tree in Hrun.
  destruct (mkdirs (clock (FaultyFS.base fs)) dest tree) as [n1|e1] eqn:Hmk.
  2:{ simplify_eq. cbn [files printed]. fold tree. split; [done|].
      split; [intros _; rewrite Hl; auto|].
      intros e0 m es _ _ _ _ Hfile.
      destruct (mkdirs_spec (clock (FaultyFS.base fs)) dest tree Hfile)
        as (? & ? & _). congruence. }
  destruct (mkdirs_return _ _ _ _ Hmk) as [Hdirs Hframe].
  destruct (Hdirs dest (is_prefix_refl dest)) as (md & esd & Hdest).
  set (fs1 := FaultyFS.with_base fs (with_root (FaultyFS.base fs) n1)) in *.
  assert (lookup target n1 = Some n) as Hl1 by (by rewrite Hframe).
  assert (is_prefix slot dest = false) as Hsd by apply is_prefix_child_false.
  assert (mkdir_parents fs dest = (fs1, Return tt)) as Hmkdir.
  { cbn [mkdir_parents FaultyFS_FileSystem]. unfold FaultyFS.lift, mkdir.
    fold tree. by rewrite Hmk. }
  destruct (shutil_move target _ _) as [w1 [[]|e1]] eqn:Hmv; [done|].
  simplify_eq. split; [|split].
  - (* nothing is printed *)
    destruct (FaultyFS.rename_refused fs) as [e0|] eqn:Hrr.
    + revert Hmv. rewrite shutil_move_unfold. cbn [files printed].
      repeat case_match; intros ?; by simplify_eq.
    + rewrite (shutil_move_trash fs1 out target n dest md esd) in Hmv;
        try done.
      revert Hmv. repeat case_match; intros ?; by simplify_eq.
  - (* the rename is not refused *)
    intros Hrr.
    rewrite (shutil_move_trash fs1 out target n dest md esd) in Hmv; try done.
    assert (w' = World fs1 out) as ->.
    { revert Hmv. repeat case_match; intros ?; by simplify_eq. }
    cbn [files printed]. split; [by right|].
    cbn [fs1 FaultyFS.base FaultyFS.with_base root with_root].
    by rewrite Hframe.
  - (* the rename is refused *)
    intros e0 m es Hrr He0 Hn Hslot Hfile. simplify_eq.
    assert (lookup slot n1 = None) as Hslot1 by (by rewrite Hframe).
    destruct (shutil_move_refused fs1 out target (Dir m es) dest md esd e0)
      as [Hsc Hmv']; try done.
    rewrite Hmv' in Hmv. clear Hmv'.
    cbn [fs1 FaultyFS.base FaultyFS.with_base root with_root
         FaultyFS.undeletable] in Hmv, Hsc.
    destruct (FaultyFS.remove_node (FaultyFS.undeletable fs) target (Dir m es))
      as [r [e2|]] eqn:Hrm; [|done].
    destruct (remove_node_failed _ _ _ _ _ Hrm) as [rest ->].
    simplify_eq. exists rest. split; [done|].
    cbn [files FaultyFS.base FaultyFS.with_base root with_root].
    assert (target ≠ []) as Ht0.
    { intros Ht. rewrite Ht in Hpre.
      rewrite (proj2 (is_prefix_true [] dest)) in Hpre; [done|by exists dest]. }
    destruct (lookup_parent target _ _ Ht0 Hsc) as (mp & esp & Hpar).
    assert (is_prefix target slot = false) as Hts.
    { destruct (is_prefix target slot) eqn:E; [|done].
      apply is_prefix_of_child in E as [E|E]; [|congruence].
      fold slot in E. rewrite E in Hl1. congruence. }
    assert (is_prefix slot target = false) as Hst.
    { destruct (is_prefix slot target) eqn:E; [|done].
      apply is_prefix_true in E as [r Hr]. rewrite Hr in Hl1.
      destruct (lookup_prefix slot r n1 _ Hl1) as [x Hx]. congruence. }
    split.
    + rewrite lookup_place_other by done.
      rewrite <- (app_nil_r slot) at 1.
      rewrite (lookup_place_here slot [] _ n1 md esd); [done| |].
      * unfold slot, path_child. by destruct dest.
      * unfold slot. by rewrite path_parent_child.
    + rewrite <- (app_nil_r target) at 1.
      by rewrite (lookup_place_here target [] _ _ mp esp).
Qed.

End TrashFacts.


(** ** Order of backup tags *)

Lemma ascii_compare_refl c : Ascii.compare c c = Eq.
Proof. unfold Ascii.compare. apply N.compare_refl. Qed.

Lemma digit_compare x y :
  Ascii.compare (digit x) (digit y) = Nat.compare (x mod 10) (y mod 10).
Proof.
  unfold digit.
  assert (x mod 10 < 10) as Hx by (apply Nat.mod_upper_bound; lia).
  assert (y mod 10 < 10) as Hy by (apply Nat.mod_upper_bound; lia).
  generalize dependent (x mod 10). generalize dependent (y mod 10).
  intros b Hb a Ha.
  do 10 (destruct a as [|a]; [do 10 (destruct b as [|b]; [reflexivity|]); lia|]).
  lia.
Qed.

Lemma compare_digit x y s t :
  String.compare (String (digit x) s) (String (digit y) t)
  = lex (Nat.compare (x mod 10) (y mod 10)) (String.compare s t).
Proof. cbn [String.compare]. rewrite digit_compare. by destruct (_ ?= _). Qed.

Lemma compare_same c s t :
  String.compare (String c s) (String c t) = String.compare s t.
Proof. cbn [String.compare]. by rewrite ascii_compare_refl. Qed.

Lemma append_String c s t : String c s +:+ t = String c (s +:+ t).
Proof. reflexivity. Qed.

Lemma append_Empty t : EmptyString +:+ t = t.
Proof. reflexivity. Qed.

(** name quotient and remainder, so that the arithmetic left is linear *)
Ltac name_divmod a n q r :=
  pose proof (Nat.div_mod_eq a n);
  pose proof (Nat.mod_upper_bound a n ltac:(lia));
  generalize dependent (a / n); intros q;
  generalize dependent (a mod n); intros r; intros.

Lemma lex_tens a b r :
  lex (Nat.compare (a / 10) (b / 10)) (lex (Nat.compare (a mod 10) (b mod 10)) r)
  = lex (Nat.compare a b) r.
Proof.
  name_divmod a 10 qa ra. name_divmod b 10 qb rb.
  destruct (Nat.compare_spec qa qb), (Nat.compare_spec ra rb),
           (Nat.compare_spec a b); cbn [lex]; try reflexivity; exfalso; lia.
Qed.

Lemma pad2_compare a b s t :
  a < 100 → b < 100 →
  String.compare (pad2 a +:+ s) (pad2 b +:+ t)
  = lex (Nat.compare a b) (String.compare s t).
Proof.
  intros Ha Hb. unfold pad2. rewrite !append_String, !append_Empty.
  rewrite !compare_digit.
  assert (a / 10 < 10) by (apply Nat.Div0.div_lt_upper_bound; lia).
  assert (b / 10 < 10) by (apply Nat.Div0.div_lt_upper_bound; lia).
  rewrite (Nat.mod_small (a / 10)), (Nat.mod_small (b / 10)) by done.
  apply lex_tens.
Qed.

Lemma digit_mod x y : x mod 10 = y mod 10 → digit x = digit y.
Proof. unfold digit. by intros ->. Qed.

Lemma pad4_split n : pad4 n = pad2 (n / 100) +:+ pad2 (n mod 100).
Proof.
  unfold pad4, pad2. rewrite !append_String, !append_Empty.
  assert (n = n mod 100 + (10 * (n / 100)) * 10) as Hn.
  { pose proof (Nat.div_mod_eq n 100). lia. }
  f_equal; [apply digit_mod; by rewrite Nat.Div0.div_div|].
  f_equal. f_equal; [|f_equal]; apply digit_mod.
  - rewrite Hn at 1. rewrite Nat.div_add by lia. rewrite Nat.Div0.add_mod.
    rewrite (Nat.mul_comm 10 (n / 100)).
    by rewrite Nat.Div0.mod_mul, Nat.add_0_r, Nat.Div0.mod_mod.
  - rewrite Hn at 1. by rewrite Nat.Div0.mod_add.
Qed.

Lemma lex_hundreds a b r :
  lex (Nat.compare (a / 100) (b / 100)) (lex (Nat.compare (a mod 100) (b mod 100)) r)
  = lex (Nat.compare a b) r.
Proof.
  name_divmod a 100 qa ra. name_divmod b 100 qb rb.
  destruct (Nat.compare_spec qa qb), (Nat.compare_spec ra rb),
           (Nat.compare_spec a b); cbn [lex]; try reflexivity; exfalso; lia.
Qed.

Lemma pad4_compare a b s t :
  a < 100 * 100 → b < 100 * 100 →
  String.compare (pad4 a +:+ s) (pad4 b +:+ t)
  = lex (Nat.compare a b) (String.compare s t).
Proof.
  intros Ha Hb. rewrite !pad4_split.
  assert (∀ x y z, (x +:+ y) +:+ z = x +:+ (y +:+ z)) as Hassoc.
  { induction x as [|c x IH]; intros; [done|].
    by rewrite !append_String, IH. }
  rewrite !Hassoc.
  assert (a / 100 < 100) by (apply Nat.Div0.div_lt_upper_bound; lia).
  assert (b / 100 < 100) by (apply Nat.Div0.div_lt_upper_bound; lia).
  assert (a mod 100 < 100) by (apply Nat.mod_upper_bound; lia).
  assert (b mod 100 < 100) by (apply Nat.mod_upper_bound; lia).
  rewrite !pad2_compare by done. apply lex_hundreds.
Qed.

Lemma pad2_nil a : pad2 a = pad2 a +:+ EmptyString.
Proof. done. Qed.

Lemma stamp_sortable a b :
  calendar a → calendar b →
  String.compare (stamp_of a) (stamp_of b) = chronological a b.
Proof.
  intros (Hy & Hmo & Hd & Hh & Hmi & Hs) (Hy' & Hmo' & Hd' & Hh' & Hmi' & Hs').
  unfold stamp_of, chronological.
  rewrite (pad2_nil (second a)), (pad2_nil (second b)).
  rewrite !(append_String _ EmptyString), !append_Empty.
  rewrite pad4_compare by lia. f_equal. rewrite compare_same.
  rewrite pad2_compare by lia. f_equal. rewrite compare_same.
  rewrite pad2_compare by lia. f_equal. rewrite compare_same.
  rewrite pad2_compare by lia. f_equal. rewrite compare_same.
  rewrite pad2_compare by lia. f_equal. rewrite compare_same.
  rewrite pad2_compare by lia. cbn [String.compare]. by destruct (_ ?= _).
Qed.

Lemma string_compare_refl s : String.compare s s = Eq.
Proof.
  induction s as [|c s IH]; [done|].
  cbn [String.compare]. by rewrite ascii_compare_refl.
Qed.

Lemma lex_Eq c r : lex c r = Eq ↔ c = Eq ∧ r = Eq.
Proof. destruct c; simpl; split; try done; by intros [??]. Qed.

(** X1. For datetimes with a four-digit year, the tags that [backup]
    forms compare as strings the way the datetimes compare in time, and
    two tags are equal exactly when the datetimes agree up to the second. *)
Theorem stamp_of_order (a b : datetime) :
  calendar a → calendar b →
  String.compare (stamp_of a) (stamp_of b) = chronological a b ∧
  (stamp_of a = stamp_of b ↔ same_second a b).
Proof.
  intros Ha Hb. split; [by apply stamp_sortable|]. split.
  - intros He. pose proof (stamp_sortable a b Ha Hb) as Hc.
    rewrite He, string_compare_refl in Hc. symmetry in Hc.
    unfold chronological in Hc. rewrite !lex_Eq in Hc.
    destruct Hc as (?%Nat.compare_eq & ?%Nat.compare_eq & ?%Nat.compare_eq &
                    ?%Nat.compare_eq & ?%Nat.compare_eq & ?%Nat.compare_eq).
    by repeat split.
  - intros (Hy & Hmo & Hd & Hh & Hmi & Hs). unfold stamp_of.
    by rewrite Hy, Hmo, Hd, Hh, Hmi, Hs.
Qed.

(** ** The copy engine and a whole sync on the in-memory file system *)

Section CopyFacts.

Import MemFS.

Lemma lookup_None_ne p n : lookup p n = None → p ≠ [].
Proof. by intros H ->. Qed.

(** two paths above the same path: one is above the other *)
Lemma is_prefix_comparable p q r :
  is_prefix p r = true → is_prefix q r = true →
  is_prefix p q = true ∨ is_prefix q p = true.
Proof.
  revert q r. induction p as [|a p IH]; intros q r Hp Hq; [by left|].
  destruct q as [|b q]; [by right|].
  destruct r as [|c r]; [done|].
  rewrite is_prefix_cons, andb_true_iff, String.eqb_eq in Hp, Hq.
  destruct Hp as [-> Hp], Hq as [-> Hq].
  rewrite !is_prefix_cons, String.eqb_refl. simpl. by eapply IH.
Qed.

(** [copy] of a directory to a place where nothing exists and that does
    not lie inside the source *)
Lemma copy_to_free_place (fs : MemFS.t) (src dst : path)
    (out : list string) m es :
  lookup src (root fs) = Some (Dir m es) →
  is_prefix src dst = false →
  lookup dst (root fs) = None →
  (∀ q mf d, is_prefix q (path_parent dst) = true →
             lookup q (root fs) ≠ Some (File mf d)) →
  ∃ fs',
    copy src dst (World fs out) = (World fs' out, Return tt) ∧
    (∀ q, lookup (dst ++ q) (root fs') = lookup (src ++ q) (root fs)) ∧
    (∀ q, is_prefix dst q = false → is_prefix q dst = false →
          lookup q (root fs') = lookup q (root fs)).
Proof.
  intros Hs _ Hd Hfile.
  pose proof (lookup_None_ne _ _ Hd) as Hne.
  destruct (mkdirs_spec (clock fs) (path_parent dst) (root fs) Hfile)
    as (n1 & Hmk & Hdirs & Hframe).
  destruct (Hdirs _ (is_prefix_refl _)) as (mp & esp & Hpar).
  exists (with_root fs (place dst (Some (Dir m es)) n1)).
  split; [|split].
  - unfold copy, bind, query, update. cbn [files printed].
    change (@path_is_dir MemFS.t _ fs src) with (Return (is_dir_b fs src)).
    unfold is_dir_b. rewrite Hs. cbn [from_option is_dir_node files printed].
    change (@copytree MemFS.t _) with copy_tree.
    unfold copy_tree. rewrite Hs, Hd, andb_false_r, Hmk.
    by rewrite copy_node_fresh.
  - intros q. cbn [root with_root].
    rewrite (lookup_place_here dst q _ n1 mp esp Hne Hpar).
    cbn. by rewrite lookup_app, Hs.
  - intros q Hdq Hqd. cbn [root with_root].
    rewrite lookup_place_other by done. apply Hframe.
    destruct (is_prefix q (path_parent dst)) eqn:E; [|done].
    by rewrite (is_prefix_parent _ _ Hne E) in Hqd.
Qed.

(** X2. [copy] of a directory to a place where nothing exists and that
    does not lie inside the source: the missing parent directories are
    made, the destination then holds the whole source tree, the source
    is as it was, and so is all that lies beside the destination. *)
Theorem copy_directory_fresh (fs : MemFS.t) (src dst : path)
    (out : list string) m es :
  lookup src (root fs) = Some (Dir m es) →
  is_prefix src dst = false →
  lookup dst (root fs) = None →
  (∀ q mf d, is_prefix q (path_parent dst) = true →
             lookup q (root fs) ≠ Some (File mf d)) →
  ∃ fs',
    copy src dst (World fs out) = (World fs' out, Return tt) ∧
    (∀ q, lookup (dst ++ q) (root fs') = lookup (src ++ q) (root fs)) ∧
    (∀ q, lookup (src ++ q) (root fs') = lookup (src ++ q) (root fs)) ∧
    (∀ q, is_prefix dst q = false → is_prefix q dst = false →
          lookup q (root fs') = lookup q (root fs)).
Proof.
  intros Hs Hsd Hd Hfile.
  destruct (copy_to_free_place fs src dst out m es Hs Hsd Hd Hfile)
    as (fs' & Hrun & Hcopy & Hframe).
  exists fs'. split; [done|]. split; [done|]. split; [|done].
  assert (is_prefix dst src = false) as Hds.
  { destruct (is_prefix dst src) eqn:E; [|done].
    apply is_prefix_true in E as [r Hr]. rewrite Hr in Hs.
    destruct (lookup_prefix dst r (root fs) _ Hs) as [x Hx]. congruence. }
  intros q. apply Hframe.
  - destruct (is_prefix dst (src ++ q)) eqn:E; [|done].
    destruct (is_prefix_comparable dst src (src ++ q) E (is_prefix_app src q));
      congruence.
  - destruct (is_prefix (src ++ q) dst) eqn:E; [|done].
    by rewrite (is_prefix_trans _ _ _ (is_prefix_app src q) E) in Hsd.
Qed.

(** X3. [copy] of a regular file: the missing parent directories of the
    destination are made, and the destination then holds the bytes and
    the modification time of the source; a regular file that was there
    is overwritten. *)
Theorem copy_regular_file (fs : MemFS.t) (src dst : path)
    (out : list string) m data :
  lookup src (root fs) = Some (File m data) →
  src ≠ dst →
  (lookup dst (root fs) = None ∨
   ∃ m' data', lookup dst (root fs) = Some (File m' data')) →
  (∀ q mf d, is_prefix q (path_parent dst) = true →
             lookup q (root fs) ≠ Some (File mf d)) →
  ∃ fs',
    copy src dst (World fs out) = (World fs' out, Return tt) ∧
    lookup dst (root fs') = Some (File m data) ∧
    lookup src (root fs') = Some (File m data) ∧
    (∀ q, is_prefix dst q = false → is_prefix q dst = false →
          lookup q (root fs') = lookup q (root fs)).
Proof.
  intros Hs Hsd Hd Hfile.
  assert (dst ≠ []) as Hne.
  { intros ->. destruct Hd as [Hd|(m' & d' & Hd)]; [done|].
    by apply (Hfile [] m' d'). }
  destruct (mkdirs_spec (clock fs) (path_parent dst) (root fs) Hfile)
    as (n1 & Hmk & Hdirs & Hframe).
  destruct (Hdirs _ (is_prefix_refl _)) as (mp & esp & Hpar).
  assert (is_prefix src (path_parent dst) = false) as Hsp.
  { destruct (is_prefix src (path_parent dst)) eqn:E; [|done].
    by destruct (Hfile src m data E). }
  assert (is_prefix dst (path_parent dst) = false) as Hdp.
  { destruct (exists_last Hne) as (p' & c & ->).
    unfold path_parent. rewrite removelast_last.
    apply (is_prefix_child_false p' c). }
  assert (lookup src n1 = Some (File m data)) as Hs1.
  { by rewrite Hframe. }
  assert (lookup dst n1 = lookup dst (root fs)) as Hd1.
  { by rewrite Hframe. }
  assert (path_eqb src dst = false) as Heq.
  { destruct (path_eqb src dst) eqn:E; [|done]. by apply path_eqb_eq in E. }
  assert (is_prefix src dst = false ∧ is_prefix dst src = false) as [Hpsd Hpds].
  { split.
    - destruct (is_prefix src dst) eqn:E; [|done].
      destruct (exists_last Hne) as (p' & c & Hdst).
      rewrite Hdst in E. apply is_prefix_of_child in E as [E|E].
      + unfold path_child in E. congruence.
      + rewrite Hdst in Hsp. unfold path_parent in Hsp.
        rewrite removelast_last in Hsp. congruence.
    - destruct (is_prefix dst src) eqn:E; [|done].
      apply is_prefix_true in E as [r ->].
      destruct r as [|c r]; [by rewrite app_nil_r in Hsd|].
      destruct Hd as [Hd|(m' & d' & Hd)].
      + by rewrite lookup_app, Hd in Hs.
      + rewrite lookup_app, Hd in Hs.
        change (lookup (c :: r) (File m' d') = Some (File m data)) in Hs.
        by rewrite lookup_file in Hs. }
  exists (with_root fs (place dst (Some (File m data)) n1)).
  split; [|split; [|split]].
  - unfold copy, bind, query, update. cbn [files printed].
    change (@path_is_dir MemFS.t _ fs src) with (Return (is_dir_b fs src)).
    unfold is_dir_b at 1. rewrite Hs.
    cbn [from_option is_dir_node files printed].
    change (@mkdir_parents MemFS.t _) with mkdir.
    change (@copy2 MemFS.t _) with copy_file.
    unfold mkdir. rewrite Hmk. cbn [files printed].
    unfold copy_file, is_dir_b. cbn [root with_root]. rewrite Hs1, Hd1.
    destruct Hd as [Hd|(m' & data' & Hd)]; rewrite Hd;
      cbn [from_option is_dir_node negb]; rewrite Heq, Hpar, Hd1, Hd; done.
  - cbn [root with_root]. rewrite <- (app_nil_r dst) at 1.
    by rewrite (lookup_place_here dst [] _ n1 mp esp Hne Hpar).
  - cbn [root with_root]. by rewrite lookup_place_other.
  - intros q Hdq Hqd. cbn [root with_root].
    rewrite lookup_place_other by done. apply Hframe.
    destruct (is_prefix q (path_parent dst)) eqn:E; [|done].
    by rewrite (is_prefix_parent _ _ Hne E) in Hqd.
Qed.

End CopyFacts.

Section SyncSuccess.

Import MemFS.

(** what lies above an existing entry is a directory *)
Lemma lookup_above_dir p q n x :
  lookup p n = Some x → is_prefix q p = true → q ≠ p →
  ∃ m es, lookup q n = Some (Dir m es).
Proof.
  intros Hp [r ->]%is_prefix_true Hne.
  destruct r as [|c r]; [by rewrite app_nil_r in Hne|].
  rewrite lookup_app in Hp.
  destruct (lookup q n) as [[m d|m es]|]; [|eauto|done].
  change (lookup (c :: r) (File m d) = Some x) in Hp.
  by rewrite lookup_file in Hp.
Qed.

(** the file system that a successful [backup] leaves: the trash
    directories made, the target taken out and placed in the trash *)
Lemma backup_result (TRASH_DIR : path) now (fs : MemFS.t) target game out n :
  let dest := path_child (path_child TRASH_DIR (stamp_of now)) game in
  let slot := path_child dest (path_name target) in
  lookup target (root fs) = Some n →
  lookup slot (root fs) = None →
  (∀ q m d, is_prefix q dest = true → lookup q (root fs) ≠ Some (File m d)) →
  is_prefix target dest = false →
  ∃ n1,
    mkdirs (clock fs) dest (root fs) = Return n1 ∧
    backup TRASH_DIR now target game (World fs out)
    = (World (with_root fs (place slot (Some n) (place target None n1)))
         (out ++ ["🔄 Previous data moved to " +:+ show_path dest]),
       Return tt).
Proof.
  intros dest slot Hl Hslot Hfile Hpre.
  assert (target ≠ []) as Hne by (by intros ->).
  destruct (mkdirs_spec (clock fs) dest (root fs) Hfile)
    as (n1 & Hmk & Hdirs & Hframe).
  exists n1. split; [done|].
  set (fs1 := with_root fs n1).
  assert (lookup target (root fs1) = Some n) as Hl1.
  { cbn [root fs1 with_root]. by rewrite Hframe. }
  assert (lookup slot (root fs1) = None) as Hslot1.
  { cbn [root fs1 with_root]. rewrite Hframe; [done|].
    apply is_prefix_child_false. }
  destruct (Hdirs dest (is_prefix_refl dest)) as (m & es & Hdest).
  assert (is_prefix target slot = false) as Hts.
  { destruct (is_prefix target slot) eqn:E; [|done].
    apply is_prefix_of_child in E as [E|E]; [fold slot in E|]; congruence. }
  unfold backup, bind at 1, query. cbn [files printed].
  change (@path_exists MemFS.t _ fs target) with (Return (exists_b fs target)).
  unfold exists_b. rewrite Hl. cbn [is_some negb].
  unfold bind at 1, update. cbn [files printed].
  change (@mkdir_parents MemFS.t _) with mkdir.
  unfold mkdir. fold dest. rewrite Hmk.
  unfold bind at 1. fold slot. fold fs1.
  rewrite (shutil_move_free fs1 out target slot n m es); try done.
  unfold slot. by rewrite path_parent_child.
Qed.

Lemma is_prefix_false_ne p q : is_prefix p q = false → p ≠ q.
Proof. intros H ->. by rewrite is_prefix_refl in H. Qed.

(** X4. A sync onto an existing target: when source and target are
    directories beside each other, the trash slot is free and the trash
    lies neither inside the target nor inside the source, [perform]
    succeeds; afterwards the trash slot holds the old target, the target
    holds a copy of the whole source tree, and the source is as it was. *)
Theorem perform_replaces_target (TRASH_DIR : path) now
    (defs : gmap string (gmap string string)) current_os direction game
    (fs : MemFS.t) (src target : path) (out : list string) ms ess n :
  let dest := path_child (path_child TRASH_DIR (stamp_of now)) game in
  let slot := path_child dest (path_name target) in
  resolve defs current_os direction = Return (src, target) →
  lookup src (root fs) = Some (Dir ms ess) →
  lookup target (root fs) = Some n →
  is_prefix src target = false → is_prefix target src = false →
  lookup slot (root fs) = None →
  (∀ q m d, is_prefix q dest = true → lookup q (root fs) ≠ Some (File m d)) →
  is_prefix target dest = false → is_prefix src slot = false →
  ∃ fs',
    perform TRASH_DIR now defs current_os direction game (World fs out)
    = (World fs'
         (out ++ summary direction game src target ++
          ["🔄 Previous data moved to " +:+ show_path dest;
           "✅  Sync complete."]),
       Return tt) ∧
    lookup slot (root fs') = Some n ∧
    (∀ q, lookup (target ++ q) (root fs') = lookup (src ++ q) (root fs)) ∧
    lookup src (root fs') = Some (Dir ms ess).
Proof.
  intros dest slot Hr Hs Ht Hst Hts Hslot Hfile Htd Hss.
  assert (target ≠ []) as Hne by (by intros ->).
  destruct (backup_result TRASH_DIR now fs target game
              (out ++ summary direction game src target) n Ht Hslot Hfile Htd)
    as (n1 & Hmk & Hbk). fold dest slot in Hmk, Hbk.
  destruct (mkdirs_return _ _ _ _ Hmk) as [Hdirs Hframe].
  set (fs1 := with_root fs (place slot (Some n) (place target None n1))) in *.
  destruct (Hdirs dest (is_prefix_refl dest)) as (md & esd & Hdest).
  assert (is_prefix slot dest = false) as Hsd by apply is_prefix_child_false.
  assert (is_prefix target slot = false) as Htsl.
  { destruct (is_prefix target slot) eqn:E; [|done].
    apply is_prefix_of_child in E as [E|E]; [fold slot in E|]; congruence. }
  assert (∀ r x, lookup (slot ++ r) (root fs) ≠ Some x) as Hunder.
  { intros r x Hx. apply lookup_prefix in Hx as [? ?]. congruence. }
  assert (is_prefix slot target = false) as Hslt.
  { destruct (is_prefix slot target) eqn:E; [|done].
    apply is_prefix_true in E as [r Hr']. destruct (Hunder r n).
    by rewrite <- Hr'. }
  assert (is_prefix slot src = false) as Hsls.
  { destruct (is_prefix slot src) eqn:E; [|done].
    apply is_prefix_true in E as [r Hr']. destruct (Hunder r (Dir ms ess)).
    by rewrite <- Hr'. }
  destruct (lookup_place_dir target dest None n1 md esd Htd Hdest)
    as [esd' Hdest'].
  destruct (lookup_parent target n1 n Hne) as (mt & est & Hpar).
  { by rewrite Hframe. }
  assert (lookup slot (root fs1) = Some n) as Hslot1.
  { cbn [root fs1 with_root]. rewrite <- (app_nil_r slot) at 1.
    rewrite (lookup_place_here slot [] (Some n) _ md esd'); [done| |].
    - unfold slot, path_child. by destruct dest.
    - unfold slot. by rewrite path_parent_child. }
  assert (lookup target (root fs1) = None) as Ht1.
  { cbn [root fs1 with_root]. rewrite lookup_place_other by done.
    rewrite <- (app_nil_r target) at 1.
    by rewrite (lookup_place_here target [] None _ mt est). }
  assert (lookup src (root fs1) = Some (Dir ms ess)) as Hs1.
  { cbn [root fs1 with_root]. rewrite !lookup_place_other by done.
    rewrite Hframe; [done|].
    destruct (is_prefix src dest) eqn:E; [|done].
    assert (is_prefix src slot = true); [|congruence].
    eapply is_prefix_trans; [done|]. apply is_prefix_app. }
  assert (∀ q m d, is_prefix q (path_parent target) = true →
                   lookup q (root fs1) ≠ Some (File m d)) as Hfile1.
  { intros q m d Hq Hl.
    pose proof (is_prefix_parent _ _ Hne Hq) as Hqt.
    assert (q ≠ target) as Hqne.
    { intros ->. destruct (exists_last Hne) as (p' & c & Hp').
      rewrite Hp' in Hq. unfold path_parent in Hq.
      rewrite removelast_last in Hq.
      pose proof (is_prefix_child_false p' c) as Hc.
      unfold path_child in Hc. congruence. }
    destruct (lookup_above_dir target q (root fs) n Ht Hqt Hqne)
      as (mq & esq & Hq0).
    assert (∃ mq' esq', lookup q n1 = Some (Dir mq' esq')) as (mq' & esq' & Hq1).
    { destruct (is_prefix q dest) eqn:E; [by apply Hdirs|].
      rewrite Hframe by done. eauto. }
    assert (is_prefix target q = false) as Htq.
    { destruct (is_prefix target q) eqn:E; [|done].
      apply is_prefix_true in E as [r1 ->].
      apply is_prefix_true in Hqt as [r2 Hr2].
      rewrite <- app_assoc in Hr2. rewrite <- (app_nil_r target) in Hr2 at 1.
      apply app_inv_head in Hr2. symmetry in Hr2.
      apply app_eq_nil in Hr2 as [-> _]. by rewrite app_nil_r in Hqne. }
    assert (is_prefix slot q = false) as Hsq.
    { destruct (is_prefix slot q) eqn:E; [|done].
      by rewrite (is_prefix_trans _ _ _ E Hqt) in Hslt. }
    destruct (lookup_place_dir target q None n1 mq' esq' Htq Hq1) as [e1 H1].
    destruct (lookup_place_dir slot q (Some n) _ mq' e1 Hsq H1) as [e2 H2].
    cbn [root fs1 with_root] in Hl. congruence. }
  destruct (copy_to_free_place fs1
              src target ((out ++ summary direction game src target) ++
                          ["🔄 Previous data moved to " +:+ show_path dest])
              ms ess Hs1 Hst Ht1 Hfile1) as (fs2 & Hcp & Hcopy & Hframe2).
  exists fs2. split; [|split; [|split]].
  - rewrite (perform_unfold TRASH_DIR now defs _ _ game src target _ Hr).
    cbn [files printed].
    change (@path_exists MemFS.t _ fs src) with (Return (exists_b fs src)).
    unfold exists_b. rewrite Hs. cbn [is_some].
    rewrite Hbk, Hcp. cbn [files printed]. by rewrite <- !app_assoc.
  - rewrite Hframe2; done.
  - intros q. by rewrite Hcopy, lookup_app, Hs1, <- Hs, <- lookup_app.
  - rewrite Hframe2; done.
Qed.

End SyncSuccess.

(** ** The theorems at sample inputs *)

Section AtSamples.

Import MemFS.
Import Samples.

Lemma parse_definition_raises_exactly_witness : ∃ d, parse_definition sample_definition = inr d ∧ two_by_two d.
Proof.
  destruct (parse_definition_raises_exactly sample_definition) as [Hiff Hok].
  assert (∀ e, parse_definition sample_definition ≠ inl e) as Hne.
  { assert (match parse_definition sample_definition with
            | inl _ => false | inr _ => true end = true) as Hok'
      by (vm_compute; reflexivity).
    intros e He. rewrite He in Hok'. discriminate. }
  apply Hok.
  - intros Hm. destruct (proj2 Hiff (or_introl Hm)) as [e He]. exact (Hne e He).
  - intros Hm. destruct (proj2 Hiff (or_intror (or_introl Hm))) as [e He]. exact (Hne e He).
  - intros s k Hs Hk.
    assert (splitlines sample_definition =
      ["WINDOWS"; "windows: C:/Users/me/AppData/Local/Game/";
       "linux:   D:/Prefixes/Game/pfx/"; EmptyString; "LINUX";
       "windows: /run/media/me/disk/Game/";
       "linux:   /home/me/.local/share/Game/"]) as -> by (vm_compute; reflexivity).
    assert (∀ raw, mem (upper (strip raw)) sections = false → ¬ header raw) as Hnh.
    { unfold header. congruence. }
    apply elem_of_cons in Hs as [->|Hs]; [|apply elem_of_cons in Hs as [->|Hs]; [|inversion Hs]];
    (apply elem_of_cons in Hk as [->|Hk]; [|apply elem_of_cons in Hk as [->|Hk]; [|inversion Hk]]).
    + exists [], "WINDOWS", [], "windows: C:/Users/me/AppData/Local/Game/", 
        ["linux:   D:/Prefixes/Game/pfx/"; EmptyString; "LINUX";
         "windows: /run/media/me/disk/Game/"; "linux:   /home/me/.local/share/Game/"].
      repeat split; try reflexivity; try (by constructor);
        try (vm_compute; discriminate); by apply Hnh.
    + exists [], "WINDOWS", ["windows: C:/Users/me/AppData/Local/Game/"],
        "linux:   D:/Prefixes/Game/pfx/", 
        [EmptyString; "LINUX";
         "windows: /run/media/me/disk/Game/"; "linux:   /home/me/.local/share/Game/"].
      repeat split; try reflexivity; try (vm_compute; discriminate);
        try (by apply Hnh); repeat constructor; by apply Hnh.
    + exists ["WINDOWS"; "windows: C:/Users/me/AppData/Local/Game/";
              "linux:   D:/Prefixes/Game/pfx/"; EmptyString], "LINUX", [],
        "windows: /run/media/me/disk/Game/", ["linux:   /home/me/.local/share/Game/"].
      repeat split; try reflexivity; try (by constructor);
        try (vm_compute; discriminate); by apply Hnh.
    + exists ["WINDOWS"; "windows: C:/Users/me/AppData/Local/Game/";
              "linux:   D:/Prefixes/Game/pfx/"; EmptyString], "LINUX",
        ["windows: /run/media/me/disk/Game/"], "linux:   /home/me/.local/share/Game/", [].
      repeat split; try reflexivity; try (vm_compute; discriminate);
        try (by apply Hnh); repeat constructor; by apply Hnh.
Defined.

Lemma perform_missing_source_witness :
  perform trash sample_now sample_defs "windows" "windows→linux" "game"
    (World fs_no_source [])
  = (World fs_no_source
       ([] ++ summary "windows→linux" "game" ["a"] ["b"] ++
        ["❌  Source path does not exist – aborting."]),
     Return tt).
Proof.
  apply (perform_missing_source trash sample_now sample_defs "windows"
           "windows→linux" "game" ["a"] ["b"] (World fs_no_source []));
    vm_compute; reflexivity.
Defined.

Lemma perform_copy_failure_witness :
  ∃ w3 : world MemFS.t,
    perform trash sample_now alias_defs "windows" "windows→linux" "game"
      (World fs_fresh [])
    = (World (files w3)
         (printed w3 ++ ["❌  Copy failed: " +:+ show_exn FileNotFoundError]),
       Return tt) ∧
    lookup ["Trash"; "2025-01-02_03-04-05"; "game"; "a"] (root (files w3))
    = Some save_dir ∧
    lookup ["a"] (root (files w3)) = None.
Proof.
  set (w1 := World fs_fresh
               ([] ++ summary "windows→linux" "game" ["a"] ["a"])).
  set (w2 := fst (backup trash sample_now ["a"] "game" w1)).
  set (w3 := fst (copy ["a"] ["a"] w2)).
  exists w3. split; [|split; vm_compute; reflexivity].
  apply (perform_copy_failure trash sample_now alias_defs "windows"
           "windows→linux" "game" ["a"] ["a"] (World fs_fresh []) w2 w3);
    vm_compute; reflexivity.
Defined.

Lemma perform_backup_failure_witness :
  ∃ w2 : world MemFS.t,
    perform trash sample_now sample_defs "windows" "windows→linux" "game"
      (World fs_collision_twice [])
    = (w2, Raise (ShutilError
         "Destination path '/Trash/2025-01-02_03-04-05/game/b/b' already exists")) ∧
    lookup ["b"] (root (files w2)) = Some old_dir.
Proof.
  set (w1 := World fs_collision_twice
               ([] ++ summary "windows→linux" "game" ["a"] ["b"])).
  set (w2 := fst (backup trash sample_now ["b"] "game" w1)).
  exists w2. split; [|vm_compute; reflexivity].
  apply (perform_backup_failure trash sample_now sample_defs "windows"
           "windows→linux" "game" ["a"] ["b"] (World fs_collision_twice []) w2);
    vm_compute; reflexivity.
Defined.

Lemma newest_label_witness :
  truthy (newer_is_win (Some 5%Z) (Some 5%Z)) = false ∧
  truthy (newer_is_lin (Some 5%Z) (Some 5%Z)) = false.
Proof.
  exact (proj1 (proj2 (proj2 (newest_label (Some 5%Z) (Some 5%Z)))) eq_refl).
Defined.

Lemma backup_moves_target_witness :
  (∃ fs',
     backup trash sample_now ["b"] "game" (World (FaultyFS.plain fs_both) [])
     = (World fs'
          ([] ++ ["🔄 Previous data moved to " +:+
                  show_path ["Trash"; "2025-01-02_03-04-05"; "game"]]),
        Return tt) ∧
     relocated (FaultyFS.plain fs_both) fs' ["b"]
       ["Trash"; "2025-01-02_03-04-05"; "game"; "b"] old_dir) ∧
  (∃ fs',
     backup trash sample_now ["b"] "game" (World fs_other_device [])
     = (World fs'
          ([] ++ ["🔄 Previous data moved to " +:+
                  show_path ["Trash"; "2025-01-02_03-04-05"; "game"]]),
        Return tt) ∧
     relocated fs_other_device fs' ["b"]
       ["Trash"; "2025-01-02_03-04-05"; "game"; "b"] old_dir) ∧
  (∃ fs',
     backup trash sample_now ["b"] "game"
       (World (FaultyFS.plain fs_collision) [])
     = (World fs'
          ([] ++ ["🔄 Previous data moved to " +:+
                  show_path ["Trash"; "2025-01-02_03-04-05"; "game"]]),
        Return tt) ∧
     relocated (FaultyFS.plain fs_collision) fs' ["b"]
       ["Trash"; "2025-01-02_03-04-05"; "game"; "b"; "b"] old_dir) ∧
  backup trash sample_now ["b"] "game"
    (World (FaultyFS.plain fs_collision_twice) [])
  = (World (FaultyFS.plain fs_collision_twice) [],
     Raise (ShutilError
       "Destination path '/Trash/2025-01-02_03-04-05/game/b/b' already exists")).
Proof.
  assert (∀ fs : FaultyFS.t,
            root (FaultyFS.base fs) = root fs_both →
            ∀ q m d,
              is_prefix q ["Trash"; "2025-01-02_03-04-05"; "game"] = true →
              lookup q (root (FaultyFS.base fs)) ≠ Some (File m d)) as Hfile.
  { intros fs -> q m d [r Hr]%is_prefix_true Hl.
    destruct q as [|k1 [|k2 [|k3 [|k4 q]]]]; simpl in Hr; simplify_eq;
      vm_compute in Hl; discriminate. }
  split; [|split; [|split]].
  - destruct (proj2 (backup_moves_target trash sample_now
                       (FaultyFS.plain fs_both) ["b"] "game" []) old_dir)
      as [Hfree _]; [vm_compute; reflexivity..|].
    destruct Hfree as (fs' & Hrun & Hgone & _).
    + vm_compute; reflexivity.
    + apply Hfile. reflexivity.
    + by left.
    + exists fs'. split; [exact Hrun|exact Hgone].
  - destruct (proj2 (backup_moves_target trash sample_now
                       fs_other_device ["b"] "game" []) old_dir)
      as [Hfree _]; [vm_compute; reflexivity..|].
    destruct Hfree as (fs' & Hrun & Hgone & _).
    + vm_compute; reflexivity.
    + apply Hfile. reflexivity.
    + right. exists (OSError "EXDEV"). split; [reflexivity|].
      split; [reflexivity|]. intros q Hq. inversion Hq.
    + exists fs'. split; [exact Hrun|exact Hgone].
  - destruct (proj2 (backup_moves_target trash sample_now
                       (FaultyFS.plain fs_collision) ["b"] "game" []) old_dir)
      as (_ & Hin & _); [vm_compute; reflexivity..|].
    destruct (Hin 9%Z ∅) as (fs' & Hrun & Hgone);
      [vm_compute; reflexivity|done|vm_compute; reflexivity|reflexivity|].
    exists fs'. split; [exact Hrun|exact Hgone].
  - destruct (proj2 (backup_moves_target trash sample_now
                       (FaultyFS.plain fs_collision_twice) ["b"] "game" [])
                old_dir)
      as (_ & _ & Htaken); [vm_compute; reflexivity..|].
    apply (Htaken 9%Z {[ "b" := Dir 8 ∅ ]} (Dir 8 ∅));
      [vm_compute; reflexivity|done|vm_compute; reflexivity].
Defined.

Lemma backup_collision_counterexample :
  lookup ["b"] (root fs_collision) = Some old_dir ∧
  collision_run.2 = Return tt ∧
  lookup ["Trash"; "2025-01-02_03-04-05"; "game"; "b"]
    (root (files collision_run.1)) ≠ Some old_dir ∧
  lookup ["Trash"; "2025-01-02_03-04-05"; "game"; "b"; "b"]
    (root (files collision_run.1)) = Some old_dir.
Proof.
  split; [vm_compute; reflexivity|]. split; [vm_compute; reflexivity|].
  split; [|vm_compute; reflexivity].
  intros H. vm_compute in H. discriminate.
Qed.

Lemma latest_mtime_newest_witness :
  latest_mtime ["saves"] (World fs_autumn [])
  = (World fs_autumn [], Return (Some 13800000000%Z)) ∧
  latest_mtime ["save.dat"] (World fs_far_future [])
  = (World fs_far_future [], Return None) ∧
  latest_mtime [] (World fs_far_future [])
  = (World fs_far_future [], Return None).
Proof.
  split; [|split].
  - apply (proj2 (proj2 (proj2 (proj2 (proj2
             (latest_mtime_newest fs_autumn ["saves"] [])))))
             0%Z "s1" "s2" "s3" 6000000000%Z 6600000000%Z 7800000000%Z
             [] [] [] 7200000000%Z 13200000000%Z 13800000000%Z
             11400000000%Z); try done; vm_compute; reflexivity.
  - apply (proj1 (proj2 (latest_mtime_newest fs_far_future ["save.dat"] []))
             253402300800000000%Z []).
    vm_compute; reflexivity.
  - apply (proj1 (proj2 (proj2 (proj2
             (latest_mtime_newest fs_far_future [] []))))
             1%Z {[ "save.dat" := File 253402300800000000 [] ]}
             ["save.dat"] (File 253402300800000000 []));
      vm_compute; reflexivity.
Defined.

Lemma latest_mtime_three_files_counterexample :
  lookup ["saves"] (root fs_late_dir)
  = Some (Dir 10 (<["s1" := File 1 []]> (<["s2" := File 2 []]>
                    {[ "s3" := File 3 [] ]}))) ∧
  latest_mtime ["saves"] (World fs_late_dir [])
  = (World fs_late_dir [], Return (Some 10%Z)) ∧
  latest_mtime ["saves"] (World fs_late_dir [])
  ≠ (World fs_late_dir [], Return (Some 3%Z)).
Proof.
  split; [vm_compute; reflexivity|]. split; [vm_compute; reflexivity|].
  intros H. vm_compute in H. discriminate.
Qed.

Lemma latest_mtime_errors_witness :
  ∃ t, latest_mtime ["saves"] (World fs_vanished [])
       = (World fs_vanished [], Return (Some t)) ∧
       (5 ≤ t)%Z.
Proof.
  destruct (proj2 (@latest_mtime_errors FaultyFS.t FaultyFS_FileSystem
                     ["saves"] (World fs_vanished []))
              5%Z [["saves"; "s1"]; ["saves"; "s2"]]) as [Hskip _];
    try (vm_compute; reflexivity).
  destruct Hskip as (t & Ht & Hle & _).
  - intros q Hq. apply elem_of_cons in Hq as [->|Hq];
      [right; vm_compute; reflexivity|].
    apply elem_of_cons in Hq as [->|Hq];
      [left; exists 9%Z; vm_compute; reflexivity|inversion Hq].
  - exists t. split; [exact Ht|exact Hle].
Defined.

Lemma latest_mtime_entry_failure_counterexample :
  path_exists fs_denied ["saves"] = Return true ∧
  stat_mtime fs_denied ["saves"] = Return 5%Z ∧
  stat_mtime fs_denied ["saves"; "s1"] = Raise PermissionError ∧
  latest_mtime ["saves"] (World fs_denied []) = (World fs_denied [], Return None) ∧
  latest_mtime_skipping fs_denied ["saves"] = Some 9%Z.
Proof. repeat split; vm_compute; reflexivity. Qed.

Lemma perform_resolves_and_copies_witness :
  ∃ fs',
    perform trash sample_now sample_defs "windows" "windows→linux" "game"
      (World fs_fresh [])
    = (World fs' ([] ++ summary "windows→linux" "game" ["a"] ["b"] ++
                  ["✅  Sync complete."]), Return tt) ∧
    lookup ["b"; "save.dat"] (root fs') = Some (File 5 [Byte.x01; Byte.x02]) ∧
    lookup ["Trash"] (root fs') = lookup ["Trash"] (root fs_fresh).
Proof.
  destruct (proj2 perform_resolves_and_copies trash sample_now sample_defs
              (<["windows" := "/a"]> (<["linux" := "/b"]> ∅)) "game" fs_fresh
              1%Z (<["a" := save_dir]> {[ "Trash" := Dir 3 ∅ ]})
              2%Z 5%Z [Byte.x01; Byte.x02] [])
    as (fs' & Hrun & Hroot & Hb & _); try (vm_compute; reflexivity).
  exists fs'. split; [exact Hrun|]. split; [exact Hb|].
  rewrite Hroot. vm_compute. reflexivity.
Defined.

Lemma backup_failure_leaves_target_witness :
  (∃ w' : world FaultyFS.t,
     (backup trash sample_now ["b"] "game"
        (World (FaultyFS.plain fs_collision_twice) [])).1 = w' ∧
     lookup ["b"] (root (FaultyFS.base (files w')))
     = lookup ["b"] (root fs_collision_twice)) ∧
  (∃ rest,
     FaultyFS.remove_node [["b"; "old.dat"]] ["b"] old_dir
     = (Some rest, Some PermissionError) ∧
     lookup ["Trash"; "2025-01-02_03-04-05"; "game"; "b"]
       (root (FaultyFS.base (files read_only_run.1))) = Some old_dir ∧
     lookup ["b"] (root (FaultyFS.base (files read_only_run.1))) = Some rest).
Proof.
  assert (is_prefix ["b"]
            (path_child (path_child trash (stamp_of sample_now)) "game")
          = false) as Hpre by (vm_compute; reflexivity).
  split.
  - set (w' := (backup trash sample_now ["b"] "game"
                  (World (FaultyFS.plain fs_collision_twice) [])).1).
    exists w'. split; [reflexivity|].
    assert (backup trash sample_now ["b"] "game"
              (World (FaultyFS.plain fs_collision_twice) [])
            = (w', Raise (ShutilError
                 "Destination path '/Trash/2025-01-02_03-04-05/game/b/b' already exists")))
      as Hrun by (vm_compute; reflexivity).
    pose proof (backup_failure_leaves_target trash sample_now
                  (FaultyFS.plain fs_collision_twice) ["b"] "game" [] w' _
                  Hpre Hrun) as (_ & Hkept & _).
    exact (proj2 (Hkept eq_refl)).
  - assert (backup trash sample_now ["b"] "game" (World fs_read_only [])
            = (read_only_run.1, Raise PermissionError))
      as Hrun by (vm_compute; reflexivity).
    pose proof (backup_failure_leaves_target trash sample_now
                  fs_read_only ["b"] "game" [] read_only_run.1 _
                  Hpre Hrun) as (_ & _ & Hcopied).
    clear Hrun Hpre.
    apply (Hcopied PermissionError 4%Z {[ "old.dat" := File 2 [Byte.x00] ]});
      try (vm_compute; reflexivity).
    clear Hcopied.
    intros q m d [r Hr]%is_prefix_true Hl.
    change (["Trash"; "2025-01-02_03-04-05"; "game"] = (q ++ r)%list) in Hr.
    destruct q as [|k1 [|k2 [|k3 [|k4 q]]]]; simpl in Hr; simplify_eq;
      vm_compute in Hl; discriminate.
Defined.

Lemma backup_partial_move_counterexample :
  cross_device_run.2 = Raise PermissionError ∧
  lookup ["b"] (root (FaultyFS.base fs_cross_device)) = Some two_slots ∧
  lookup ["b"] (root (FaultyFS.base (files cross_device_run.1)))
  = Some (Dir 4 {[ "slot1.sav" := File 2 [Byte.x00] ]}) ∧
  lookup ["Trash"; "2025-01-02_03-04-05"; "game"; "b"]
    (root (FaultyFS.base (files cross_device_run.1))) = Some two_slots.
Proof. repeat split; vm_compute; reflexivity. Qed.

End AtSamples.

(** ** The further theorems at sample inputs *)

Lemma stamp_of_order_witness :
  String.compare (stamp_of Samples.sample_now) (stamp_of sample_next_minute) = Lt ∧
  stamp_of Samples.sample_now = stamp_of sample_now_later.
Proof.
  assert (calendar Samples.sample_now) as H1 by (vm_compute; lia).
  assert (calendar sample_next_minute) as H2 by (vm_compute; lia).
  assert (calendar sample_now_later) as H3 by (vm_compute; lia).
  split.
  - exact (proj1 (stamp_of_order _ _ H1 H2)).
  - apply (proj2 (stamp_of_order _ _ H1 H3)). by repeat split.
Defined.

Section FurtherSamples.

Import MemFS.
Import Samples.

Lemma copy_directory_fresh_witness :
  ∃ fs',
    copy ["a"] ["x"; "y"] (World fs_fresh []) = (World fs' [], Return tt) ∧
    lookup ["x"; "y"; "save.dat"] (root fs')
    = Some (File 5 [Byte.x01; Byte.x02]).
Proof.
  destruct (copy_directory_fresh fs_fresh ["a"] ["x"; "y"] [] 2%Z
              {[ "save.dat" := File 5 [Byte.x01; Byte.x02] ]})
    as (fs' & Hrun & Hcopy & _).
  - vm_compute; reflexivity.
  - vm_compute; reflexivity.
  - vm_compute; reflexivity.
  - intros q m d [r Hr]%is_prefix_true Hl.
    change (["x"] = (q ++ r)%list) in Hr.
    destruct q as [|k1 [|k2 q]]; simpl in Hr; simplify_eq;
      vm_compute in Hl; discriminate.
  - exists fs'. split; [exact Hrun|].
    pose proof (Hcopy ["save.dat"]) as Hq. cbn [app] in Hq.
    rewrite Hq. vm_compute; reflexivity.
Defined.

Lemma copy_regular_file_witness :
  ∃ fs',
    copy ["a"; "save.dat"] ["c"; "save.dat"] (World fs_fresh [])
    = (World fs' [], Return tt) ∧
    lookup ["c"; "save.dat"] (root fs') = Some (File 5 [Byte.x01; Byte.x02]).
Proof.
  destruct (copy_regular_file fs_fresh ["a"; "save.dat"] ["c"; "save.dat"] []
              5%Z [Byte.x01; Byte.x02])
    as (fs' & Hrun & Hdst & _).
  - vm_compute; reflexivity.
  - done.
  - left. vm_compute; reflexivity.
  - intros q m d [r Hr]%is_prefix_true Hl.
    change (["c"] = (q ++ r)%list) in Hr.
    destruct q as [|k1 [|k2 q]]; simpl in Hr; simplify_eq;
      vm_compute in Hl; discriminate.
  - exists fs'. split; [exact Hrun|exact Hdst].
Defined.

Lemma perform_replaces_target_witness :
  ∃ fs',
    perform trash sample_now sample_defs "windows" "windows→linux" "game"
      (World fs_both [])
    = (World fs'
         ([] ++ summary "windows→linux" "game" ["a"] ["b"] ++
          ["🔄 Previous data moved to " +:+
           show_path ["Trash"; "2025-01-02_03-04-05"; "game"];
           "✅  Sync complete."]),
       Return tt) ∧
    lookup ["Trash"; "2025-01-02_03-04-05"; "game"; "b"] (root fs')
    = Some old_dir ∧
    lookup ["b"] (root fs') = Some save_dir.
Proof.
  destruct (perform_replaces_target trash sample_now sample_defs "windows"
              "windows→linux" "game" fs_both ["a"] ["b"] [] 2%Z
              {[ "save.dat" := File 5 [Byte.x01; Byte.x02] ]} old_dir)
    as (fs' & Hrun & Hslot & Hcopy & _).
  - vm_compute; reflexivity.
  - vm_compute; reflexivity.
  - vm_compute; reflexivity.
  - vm_compute; reflexivity.
  - vm_compute; reflexivity.
  - vm_compute; reflexivity.
  - intros q m d [r Hr]%is_prefix_true Hl.
    change (["Trash"; "2025-01-02_03-04-05"; "game"] = (q ++ r)%list) in Hr.
    destruct q as [|k1 [|k2 [|k3 [|k4 q]]]]; simpl in Hr; simplify_eq;
      vm_compute in Hl; discriminate.
  - vm_compute; reflexivity.
  - vm_compute; reflexivity.
  - exists fs'. split; [exact Hrun|]. split; [exact Hslot|].
    pose proof (Hcopy []) as Hq. cbn [app] in Hq.
    rewrite Hq. vm_compute; reflexivity.
Defined.

End FurtherSamples.
